(** * Flashcard generator front end (public/script.js)

    A shallow embedding of the browser-side controller: the password gate,
    the file intake, the generation request, the result renderer and the
    JSON export.  JavaScript strings are sequences of UTF-16 code units;
    the page is a finite set of element handles, each with the properties
    the script reads or writes; every handler is a function on the page
    state that also returns the effects it asks the platform for. *)

From Stdlib Require Import List Arith NArith Bool String Ascii Lia.
From Stdlib Require Import Strings.Byte.
From Stdlib Require Import DecimalString.
Import ListNotations.

Set Implicit Arguments.
Set Warnings "-register-all".

(* ------------------------------------------------------------------ *)
(** ** JavaScript strings *)

Module JS.

(** A string value is a finite sequence of 16-bit code units. *)
Abbreviation code_unit := N (only parsing).
Abbreviation jsstring := (list N) (only parsing).

(** An ASCII literal of the source, as code units. *)
Definition lit (s : string) : jsstring :=
  map N_of_ascii (list_ascii_of_string s).

Definition unit_eqb (a b : code_unit) : bool := N.eqb a b.

Fixpoint str_eqb (a b : jsstring) : bool :=
  match a, b with
  | [], [] => true
  | x :: a', y :: b' => unit_eqb x y && str_eqb a' b'
  | _, _ => false
  end.

(** Named code units. *)
Definition LF : code_unit := 10%N.
Definition SPACE : code_unit := 32%N.
Definition DQUOTE : code_unit := 34%N.
Definition AMP : code_unit := 38%N.
Definition COMMA : code_unit := 44%N.
Definition LT : code_unit := 60%N.
Definition GT : code_unit := 62%N.
Definition BACKSLASH : code_unit := 92%N.
Definition NBSP : code_unit := 160%N.

(** The three pictographs of the user-visible messages. *)
Definition CROSS_MARK : jsstring := [0x274C%N].
Definition CHECK_MARK : jsstring := [0x2705%N].
Definition BRAIN : jsstring := [0xD83E%N; 0xDDE0%N].

(** ToString of a non-negative integer (an array length, a card number). *)
Definition Number_toString (n : nat) : jsstring :=
  lit (NilZero.string_of_uint (Nat.to_uint n)).

(** [s.split(sep)] for a one-unit separator: never empty. *)
Fixpoint split (sep : code_unit) (s : jsstring) : list jsstring :=
  match s with
  | [] => [[]]
  | c :: rest =>
      if unit_eqb c sep then [] :: split sep rest
      else match split sep rest with
           | p :: ps => (c :: p) :: ps
           | [] => [[c]]
           end
  end.

(** [s.replace(/\n/g, by)]. *)
Definition replace_newlines (by_ : jsstring) (s : jsstring) : jsstring :=
  flat_map (fun c => if unit_eqb c LF then by_ else [c]) s.

(** [a || b] on an optional string: the empty string and [undefined] are
    the falsy ones. *)
Definition or_else (a : option jsstring) (b : jsstring) : jsstring :=
  match a with
  | Some (c :: rest) => c :: rest
  | Some [] => b
  | None => b
  end.

(** String concatenation with a possibly undefined right operand. *)
Definition concat_undefined (a : jsstring) (b : option jsstring) : jsstring :=
  match b with
  | Some s => a ++ s
  | None => a ++ lit "undefined"
  end.

(** The two halves of a surrogate pair. *)
Definition is_leading_surrogate (c : code_unit) : bool :=
  (0xD800 <=? c)%N && (c <=? 0xDBFF)%N.
Definition is_trailing_surrogate (c : code_unit) : bool :=
  (0xDC00 <=? c)%N && (c <=? 0xDFFF)%N.

Definition REPLACEMENT : code_unit := 0xFFFD%N.

(** Conversion to a string of scalar values, as for an argument declared
    USVString: a surrogate that is not half of a pair becomes U+FFFD. *)
Fixpoint to_USVString (s : jsstring) : jsstring :=
  match s with
  | [] => []
  | c :: rest =>
      if is_leading_surrogate c then
        match rest with
        | d :: rest' =>
            if is_trailing_surrogate d then c :: d :: to_USVString rest'
            else REPLACEMENT :: to_USVString rest
        | [] => [REPLACEMENT]
        end
      else if is_trailing_surrogate c then REPLACEMENT :: to_USVString rest
      else c :: to_USVString rest
  end.

(** [new Blob(blobParts)] for string parts: each part is converted to
    scalar values and the parts are concatenated.  The blob's bytes are the
    UTF-8 encoding of this text, which loses nothing of it. *)
Definition Blob (blobParts : list jsstring) : jsstring :=
  flat_map to_USVString blobParts.



End JS.
Import JS.

(* ------------------------------------------------------------------ *)
(** ** Platform: HTML text serialization and element content *)

Module Html.

(** Serializing a text node (the [innerHTML] getter on an element whose
    only child is a text node): the four replacements of the HTML
    fragment serialization algorithm's "escaping a string", outside
    attribute mode. *)
Definition escape_unit (c : code_unit) : jsstring :=
  if unit_eqb c AMP then lit "&amp;"
  else if unit_eqb c NBSP then lit "&nbsp;"
  else if unit_eqb c LT then lit "&lt;"
  else if unit_eqb c GT then lit "&gt;"
  else [c].

Definition escape_string (s : jsstring) : jsstring := flat_map escape_unit s.

(** What element content is made of once it is read back as markup. *)
Inductive token :=
| Chr (c : code_unit)       (* one unit of visible character data *)
| LineBreak                 (* the start tag of a br element *)
| Markup.                   (* any other < : a tag, comment or declaration opens *)

Fixpoint starts_with (p s : jsstring) : bool :=
  match p, s with
  | [], _ => true
  | x :: p', y :: s' => unit_eqb x y && starts_with p' s'
  | _ :: _, [] => false
  end.

(** The character references the serializer can produce. *)
Definition reference (s : jsstring) : option (code_unit * nat) :=
  if starts_with (lit "amp;") s then Some (AMP, 4)
  else if starts_with (lit "lt;") s then Some (LT, 3)
  else if starts_with (lit "gt;") s then Some (GT, 3)
  else if starts_with (lit "nbsp;") s then Some (NBSP, 5)
  else None.

(** Reading element content: [<] opens markup, [&] opens a character
    reference, anything else is character data.  [skip] units are
    dropped first (the rest of a construct already recognised). *)
Fixpoint tokenize (skip : nat) (s : jsstring) : list token :=
  match s with
  | [] => []
  | c :: rest =>
      match skip with
      | S k => tokenize k rest
      | O =>
          if unit_eqb c LT then
            if starts_with (lit "br>") rest then LineBreak :: tokenize 3 rest
            else Markup :: tokenize 0 rest
          else if unit_eqb c AMP then
            match reference rest with
            | Some (ch, n) => Chr ch :: tokenize n rest
            | None => Chr AMP :: tokenize 0 rest
            end
          else Chr c :: tokenize 0 rest
      end
  end.

(** The content a reader sees for a text: every unit as character data,
    every newline as a line break. *)
Definition shown (text : jsstring) : list token :=
  map (fun c => if unit_eqb c LF then LineBreak else Chr c) text.

End Html.

(* ------------------------------------------------------------------ *)
(** ** Platform: the nodes of element content *)

Module Dom.

(** What markup assigned to [innerHTML] becomes: text (one node for each
    unit here), line breaks, and elements with their attributes and their
    children. *)
Inductive node :=
| Text (c : code_unit)
| Br
| Element (name : jsstring) (attributes : list (jsstring * jsstring))
          (children : list node).

(** An element whose end tag has not come yet, with its children so
    far. *)
Record open_element := {
  tag : jsstring;
  attrs : list (jsstring * jsstring);
  kids : list node
}.

(** Where the reader is: in character data, or inside a character
    reference, a tag or an attribute, with what it has read of it (last
    unit first).  [Broken] is markup outside the part of HTML read here:
    lower-case tag and attribute names, attribute values in double quotes
    without references, the references the serializer writes, [br] as the
    one element without an end tag, and end tags that match. *)
Inductive state :=
| Data
| Reference (seen : jsstring)
| TagOpen
| EndTag (seen : jsstring)
| TagName (seen : jsstring)
| BeforeAttribute (name : jsstring) (found : list (jsstring * jsstring))
| AttributeName (name : jsstring) (found : list (jsstring * jsstring))
                (seen : jsstring)
| BeforeValue (name : jsstring) (found : list (jsstring * jsstring))
              (attribute : jsstring)
| AttributeValue (name : jsstring) (found : list (jsstring * jsstring))
                 (attribute : jsstring) (seen : jsstring)
| Broken.

Definition is_name_unit (c : code_unit) : bool :=
  ((97 <=? c)%N && (c <=? 122)%N) || unit_eqb c 45%N.

Definition named (s : jsstring) : option code_unit :=
  if str_eqb s (lit "amp") then Some AMP
  else if str_eqb s (lit "lt") then Some LT
  else if str_eqb s (lit "gt") then Some GT
  else if str_eqb s (lit "nbsp") then Some NBSP
  else None.

(** A node becomes the last child of the innermost open element. *)
Definition add (n : node) (stack : list open_element) : list open_element :=
  match stack with
  | e :: rest =>
      {| tag := tag e; attrs := attrs e; kids := kids e ++ [n] |} :: rest
  | [] => []
  end.

Definition open_tag (name : jsstring) (found : list (jsstring * jsstring))
           (stack : list open_element) : list open_element :=
  if str_eqb name (lit "br") then add Br stack
  else {| tag := name; attrs := found; kids := [] |} :: stack.

Definition close_tag (name : jsstring) (stack : list open_element)
  : option (list open_element) :=
  match stack with
  | e :: parent :: rest =>
      if str_eqb name (tag e)
      then Some (add (Element (tag e) (attrs e) (kids e)) (parent :: rest))
      else None
  | _ => None
  end.

(** One unit of markup. *)
Definition feed (s : state * list open_element) (c : code_unit)
  : state * list open_element :=
  let (st, stack) := s in
  match st with
  | Data =>
      if unit_eqb c LT then (TagOpen, stack)
      else if unit_eqb c AMP then (Reference [], stack)
      else (Data, add (Text c) stack)
  | Reference seen =>
      if unit_eqb c 59%N then
        match named (rev seen) with
        | Some u => (Data, add (Text u) stack)
        | None => (Broken, stack)
        end
      else if is_name_unit c then (Reference (c :: seen), stack)
      else (Broken, stack)
  | TagOpen =>
      if unit_eqb c 47%N then (EndTag [], stack)
      else if is_name_unit c then (TagName [c], stack)
      else (Broken, stack)
  | EndTag seen =>
      if unit_eqb c GT then
        match close_tag (rev seen) stack with
        | Some stack' => (Data, stack')
        | None => (Broken, stack)
        end
      else if is_name_unit c then (EndTag (c :: seen), stack)
      else (Broken, stack)
  | TagName seen =>
      if unit_eqb c GT then (Data, open_tag (rev seen) [] stack)
      else if unit_eqb c SPACE then (BeforeAttribute (rev seen) [], stack)
      else if is_name_unit c then (TagName (c :: seen), stack)
      else (Broken, stack)
  | BeforeAttribute name found =>
      if unit_eqb c GT then (Data, open_tag name found stack)
      else if unit_eqb c SPACE then (BeforeAttribute name found, stack)
      else if is_name_unit c then (AttributeName name found [c], stack)
      else (Broken, stack)
  | AttributeName name found seen =>
      if unit_eqb c 61%N then (BeforeValue name found (rev seen), stack)
      else if is_name_unit c then (AttributeName name found (c :: seen), stack)
      else (Broken, stack)
  | BeforeValue name found attribute =>
      if unit_eqb c DQUOTE then (AttributeValue name found attribute [], stack)
      else (Broken, stack)
  | AttributeValue name found attribute seen =>
      if unit_eqb c DQUOTE
      then (BeforeAttribute name (found ++ [(attribute, rev seen)]), stack)
      else if unit_eqb c AMP then (Broken, stack)
      else (AttributeValue name found attribute (c :: seen), stack)
  | Broken => (Broken, stack)
  end.

Definition fragment : open_element := {| tag := []; attrs := []; kids := [] |}.

(** The children a fragment of markup gives the element it is assigned
    to, when the reader gets through it. *)
Definition parse (markup : jsstring) : option (list node) :=
  match fold_left feed markup (Data, [fragment]) with
  | (Data, [e]) => Some (kids e)
  | _ => None
  end.

(** *** Looking at the nodes *)

Definition is_element (n : node) : bool :=
  match n with Element _ _ _ => true | _ => false end.

Definition is_space (n : node) : bool :=
  match n with
  | Text c => unit_eqb c SPACE || unit_eqb c LF || unit_eqb c 9%N
              || unit_eqb c 12%N || unit_eqb c 13%N
  | _ => false
  end.

(** The elements among nodes that are elements and white space only. *)
Definition elements_of (l : list node) : option (list node) :=
  if forallb (fun n => is_element n || is_space n) l
  then Some (filter is_element l)
  else None.

Definition children_of (n : node) : list node :=
  match n with Element _ _ children => children | _ => [] end.

Fixpoint attribute (k : jsstring) (found : list (jsstring * jsstring))
  : option jsstring :=
  match found with
  | [] => None
  | (k', v) :: rest => if str_eqb k k' then Some v else attribute k rest
  end.

Definition class_of (n : node) : option jsstring :=
  match n with
  | Element _ attributes _ => attribute (lit "class") attributes
  | _ => None
  end.

(** A text as nodes: every unit character data; and the same with a line
    break for every newline. *)
Definition text (s : jsstring) : list node := map Text s.

Definition broken_text (s : jsstring) : list node :=
  map (fun c => if unit_eqb c LF then Br else Text c) s.

(** One face of a card: the class of the face, and what its number label
    and its text block hold.  A face is an element with two element
    children, the label and the block, and nothing but white space around
    them. *)
Record face := {
  face_class : option jsstring;
  label : list node;
  body : list node
}.

Definition face_of (n : node) : option face :=
  match elements_of (children_of n) with
  | Some [number; block] =>
      match class_of number with
      | Some cls =>
          if str_eqb cls (lit "flashcard-number")
          then Some {| face_class := class_of n;
                       label := children_of number;
                       body := children_of block |}
          else None
      | None => None
      end
  | _ => None
  end.

(** The two faces of a card's markup: one element, with two element
    children, each a face. *)
Definition faces (markup : jsstring) : option (face * face) :=
  match parse markup with
  | Some nodes =>
      match elements_of nodes with
      | Some [inner] =>
          match elements_of (children_of inner) with
          | Some [first; second] =>
              match face_of first, face_of second with
              | Some a, Some b => Some (a, b)
              | _, _ => None
              end
          | _ => None
          end
      | _ => None
      end
  | None => None
  end.

End Dom.

(* ------------------------------------------------------------------ *)
(** ** Platform: JSON *)

Module Json.

(** The values of this program's requests, responses and export: what
    JSON text can hold, numbers apart; an object's members in the order the
    object lists them, their names distinct. *)
Inductive json :=
| JNull
| JBool (b : bool)
| JString (s : jsstring)
| JArray (elements : list json)
| JObject (members : list (jsstring * json)).

Definition hex_digit (n : N) : code_unit :=
  if (n <? 10)%N then (48 + n)%N else (87 + n)%N.

(** UnicodeEscape: [\uXXXX] with lower-case digits. *)
Definition unicode_escape (c : code_unit) : jsstring :=
  [BACKSLASH; 117%N;
   hex_digit (c / 4096); hex_digit ((c / 256) mod 16);
   hex_digit ((c / 16) mod 16); hex_digit (c mod 16)].

(** One code point that is not half of a well-formed pair. *)
Definition quote_unit (c : code_unit) : jsstring :=
  if unit_eqb c 8%N then [BACKSLASH; 98%N]
  else if unit_eqb c 9%N then [BACKSLASH; 116%N]
  else if unit_eqb c 10%N then [BACKSLASH; 110%N]
  else if unit_eqb c 12%N then [BACKSLASH; 102%N]
  else if unit_eqb c 13%N then [BACKSLASH; 114%N]
  else if unit_eqb c DQUOTE then [BACKSLASH; DQUOTE]
  else if unit_eqb c BACKSLASH then [BACKSLASH; BACKSLASH]
  else if (c <? 32)%N || is_leading_surrogate c || is_trailing_surrogate c
       then unicode_escape c
  else [c].

(** QuoteJSONString, between the quotes: a surrogate pair goes out as it
    is, a lone surrogate and a control character escaped. *)
Fixpoint quote_units (s : jsstring) : jsstring :=
  match s with
  | [] => []
  | c :: rest =>
      if is_leading_surrogate c then
        match rest with
        | d :: rest' =>
            if is_trailing_surrogate d then c :: d :: quote_units rest'
            else quote_unit c ++ quote_units rest
        | [] => quote_unit c
        end
      else quote_unit c ++ quote_units rest
  end.

Definition QuoteJSONString (s : jsstring) : jsstring :=
  DQUOTE :: quote_units s ++ [DQUOTE].

Fixpoint join (sep : jsstring) (parts : list jsstring) : jsstring :=
  match parts with
  | [] => []
  | [p] => p
  | p :: ps => p ++ sep ++ join sep ps
  end.

Definition is_empty (s : jsstring) : bool :=
  match s with [] => true | _ => false end.

(** The bracketed list of SerializeJSONArray and SerializeJSONObject. *)
Definition bracketed (opening closing : code_unit) (gap stepback : jsstring)
           (partial : list jsstring) : jsstring :=
  match partial with
  | [] => [opening; closing]
  | _ =>
      if is_empty gap then
        [opening] ++ join [COMMA] partial ++ [closing]
      else
        let indent := stepback ++ gap in
        [opening; LF] ++ indent ++ join ([COMMA; LF] ++ indent) partial
          ++ [LF] ++ stepback ++ [closing]
  end.

(** SerializeJSONProperty with the current indentation. *)
Fixpoint serialize (gap indent : jsstring) (v : json) : jsstring :=
  match v with
  | JNull => lit "null"
  | JBool true => lit "true"
  | JBool false => lit "false"
  | JString s => QuoteJSONString s
  | JArray elements =>
      bracketed 91%N 93%N gap indent
        (map (serialize gap (indent ++ gap)) elements)
  | JObject members =>
      bracketed 123%N 125%N gap indent
        (map (fun kv =>
                QuoteJSONString (fst kv) ++ [58%N]
                  ++ (if is_empty gap then [] else [SPACE])
                  ++ serialize gap (indent ++ gap) (snd kv))
             members)
  end.

(** [JSON.stringify(value)] and [JSON.stringify(value, null, n)]. *)
Definition stringify (v : json) : jsstring := serialize [] [] v.
Definition stringify_indented (n : nat) (v : json) : jsstring :=
  serialize (repeat SPACE (Nat.min n 10)) [] v.

(** *** Reading JSON text *)

Definition is_ws (c : code_unit) : bool :=
  unit_eqb c 32%N || unit_eqb c 10%N || unit_eqb c 13%N || unit_eqb c 9%N.

Fixpoint skip_ws (s : jsstring) : jsstring :=
  match s with
  | c :: rest => if is_ws c then skip_ws rest else s
  | [] => []
  end.

Definition hex_value (c : code_unit) : option N :=
  if (48 <=? c)%N && (c <=? 57)%N then Some (c - 48)%N
  else if (97 <=? c)%N && (c <=? 102)%N then Some (c - 87)%N
  else if (65 <=? c)%N && (c <=? 70)%N then Some (c - 55)%N
  else None.

Definition hex4 (a b c d : code_unit) : option code_unit :=
  match hex_value a, hex_value b, hex_value c, hex_value d with
  | Some x, Some y, Some z, Some w => Some (4096 * x + 256 * y + 16 * z + w)%N
  | _, _, _, _ => None
  end.

(** The single-character escapes of the JSON grammar. *)
Definition unescape (e : code_unit) : option code_unit :=
  if unit_eqb e DQUOTE then Some DQUOTE
  else if unit_eqb e BACKSLASH then Some BACKSLASH
  else if unit_eqb e 47%N then Some 47%N
  else if unit_eqb e 98%N then Some 8%N
  else if unit_eqb e 102%N then Some 12%N
  else if unit_eqb e 110%N then Some 10%N
  else if unit_eqb e 114%N then Some 13%N
  else if unit_eqb e 116%N then Some 9%N
  else None.

(** A string after its opening quote, up to and past the closing one. *)
Fixpoint parse_string (s : jsstring) : option (jsstring * jsstring) :=
  match s with
  | [] => None
  | c :: rest =>
      if unit_eqb c DQUOTE then Some ([], rest)
      else if unit_eqb c BACKSLASH then
        match rest with
        | [] => None
        | e :: rest1 =>
            if unit_eqb e 117%N then
              match rest1 with
              | h1 :: h2 :: h3 :: h4 :: rest2 =>
                  match hex4 h1 h2 h3 h4, parse_string rest2 with
                  | Some u, Some (str, r) => Some (u :: str, r)
                  | _, _ => None
                  end
              | _ => None
              end
            else
              match unescape e, parse_string rest1 with
              | Some u, Some (str, r) => Some (u :: str, r)
              | _, _ => None
              end
        end
      else if (c <? 32)%N then None
      else
        match parse_string rest with
        | Some (str, r) => Some (c :: str, r)
        | None => None
        end
  end.

(** Put a decoded unit in front of what the rest of the string gives. *)
Definition prepend (u : code_unit) (r : option (jsstring * jsstring))
  : option (jsstring * jsstring) :=
  match r with
  | Some (str, rest) => Some (u :: str, rest)
  | None => None
  end.

Definition expect (word : jsstring) (v : json) (s : jsstring)
  : option (json * jsstring) :=
  if Html.starts_with word s then Some (v, skipn (List.length word) s) else None.

(** Recursive descent over the JSON grammar; number literals are not
    read (no value of this program carries one).  [fuel] bounds the depth
    of the descent. *)
Fixpoint parse_value (fuel : nat) (s : jsstring) {struct fuel}
  : option (json * jsstring) :=
  match fuel with
  | O => None
  | S n =>
      match skip_ws s with
      | [] => None
      | c :: rest =>
          if unit_eqb c DQUOTE then
            match parse_string rest with
            | Some (str, r) => Some (JString str, r)
            | None => None
            end
          else if unit_eqb c 91%N then
            match skip_ws rest with
            | [] => None
            | d :: rest' =>
                if unit_eqb d 93%N then Some (JArray [], rest')
                else match parse_elements n rest with
                     | Some (l, r) => Some (JArray l, r)
                     | None => None
                     end
            end
          else if unit_eqb c 123%N then
            match skip_ws rest with
            | [] => None
            | d :: rest' =>
                if unit_eqb d 125%N then Some (JObject [], rest')
                else match parse_members n rest with
                     | Some (m, r) => Some (JObject m, r)
                     | None => None
                     end
            end
          else if unit_eqb c 110%N then expect (lit "ull") JNull rest
          else if unit_eqb c 116%N then expect (lit "rue") (JBool true) rest
          else if unit_eqb c 102%N then expect (lit "alse") (JBool false) rest
          else None
      end
  end
with parse_elements (fuel : nat) (s : jsstring) {struct fuel}
  : option (list json * jsstring) :=
  match fuel with
  | O => None
  | S n =>
      match parse_value n s with
      | None => None
      | Some (v, rest) =>
          match skip_ws rest with
          | [] => None
          | c :: rest' =>
              if unit_eqb c COMMA then
                match parse_elements n rest' with
                | Some (l, r) => Some (v :: l, r)
                | None => None
                end
              else if unit_eqb c 93%N then Some ([v], rest')
              else None
          end
      end
  end
with parse_members (fuel : nat) (s : jsstring) {struct fuel}
  : option (list (jsstring * json) * jsstring) :=
  match fuel with
  | O => None
  | S n =>
      match skip_ws s with
      | [] => None
      | q :: rest0 =>
          if unit_eqb q DQUOTE then
            match parse_string rest0 with
            | None => None
            | Some (k, rest1) =>
                match skip_ws rest1 with
                | [] => None
                | colon :: rest2 =>
                    if unit_eqb colon 58%N then
                      match parse_value n rest2 with
                      | None => None
                      | Some (v, rest3) =>
                          match skip_ws rest3 with
                          | [] => None
                          | c :: rest4 =>
                              if unit_eqb c COMMA then
                                match parse_members n rest4 with
                                | Some (m, r) => Some ((k, v) :: m, r)
                                | None => None
                                end
                              else if unit_eqb c 125%N then Some ([(k, v)], rest4)
                              else None
                          end
                      end
                    else None
                end
            end
          else None
      end
  end.

(** A depth of descent that is enough to read a value back. *)
Fixpoint size (v : json) : nat :=
  match v with
  | JArray elements => S (list_sum (map (fun x => S (size x)) elements))
  | JObject members => S (list_sum (map (fun kv => S (size (snd kv))) members))
  | _ => 1
  end.

(** Text made of white space only. *)
Definition blank (w : jsstring) : Prop := Forall (fun c => is_ws c = true) w.

(** Induction on values, with the hypothesis for every element and for
    every member's value. *)
Section json_induction.
Variable P : json -> Prop.
Hypothesis HNull : P JNull.
Hypothesis HBool : forall b, P (JBool b).
Hypothesis HString : forall s, P (JString s).
Hypothesis HArray : forall l, Forall P l -> P (JArray l).
Hypothesis HObject :
  forall m, Forall (fun kv => P (snd kv)) m -> P (JObject m).

Fixpoint json_nested_ind (v : json) : P v :=
  match v with
  | JNull => HNull
  | JBool b => HBool b
  | JString s => HString s
  | JArray l =>
      HArray
        ((fix all (l : list json) : Forall P l :=
            match l with
            | [] => Forall_nil P
            | x :: xs => Forall_cons x (json_nested_ind x) (all xs)
            end) l)
  | JObject m =>
      HObject
        ((fix all (m : list (jsstring * json))
           : Forall (fun kv => P (snd kv)) m :=
            match m with
            | [] => Forall_nil _
            | kv :: xs =>
                Forall_cons (P := fun kv => P (snd kv)) kv
                  (match kv as kv0 return P (snd kv0) with
                   | (_, x) => json_nested_ind x
                   end)
                  (all xs)
            end) m)
  end.
End json_induction.

(** What a serialized value starts with. *)
Definition opens_value (c : code_unit) : Prop :=
  is_ws c = false /\ c <> 93%N /\ c <> 125%N.

(** [ser] writes [x] so that it is read back, before any continuation, with
    a depth of descent of its size. *)
Definition reads_back (ser : json -> jsstring) (x : json) : Prop :=
  forall rest' fuel, size x <= fuel ->
    parse_value fuel (ser x ++ rest') = Some (x, rest').

(** One member of a serialized object: key, colon, separator, value. *)
Definition member_text (ser : json -> jsstring) (sp : jsstring)
           (kv : jsstring * json) : jsstring :=
  QuoteJSONString (fst kv) ++ [58%N] ++ sp ++ ser (snd kv).

(** [JSON.parse(text)]: one value, then only white space. *)
Definition parse (text : jsstring) : option json :=
  match parse_value (S (List.length text)) text with
  | Some (v, rest) =>
      match skip_ws rest with
      | [] => Some v
      | _ :: _ => None
      end
  | None => None
  end.

End Json.

(* ------------------------------------------------------------------ *)
(** ** Platform: files and their data: URL *)

Module DataURL.

(** The base64 alphabet (RFC 4648, table 1). *)
Definition base64_unit (n : N) : code_unit :=
  if (n <? 26)%N then (65 + n)%N
  else if (n <? 52)%N then (71 + n)%N
  else if (n <? 62)%N then (n - 4)%N
  else if (n =? 62)%N then 43%N
  else 47%N.

Definition PAD : code_unit := 61%N.

Fixpoint base64 (bs : list byte) : jsstring :=
  match bs with
  | [] => []
  | [a] =>
      let x := Byte.to_N a in
      [base64_unit (x / 4); base64_unit ((x mod 4) * 16); PAD; PAD]
  | [a; b] =>
      let x := Byte.to_N a in
      let y := Byte.to_N b in
      [base64_unit (x / 4); base64_unit ((x mod 4) * 16 + y / 16);
       base64_unit ((y mod 16) * 4); PAD]
  | a :: b :: c :: rest =>
      let x := Byte.to_N a in
      let y := Byte.to_N b in
      let z := Byte.to_N c in
      [base64_unit (x / 4); base64_unit ((x mod 4) * 16 + y / 16);
       base64_unit ((y mod 16) * 4 + z / 64); base64_unit (z mod 64)]
        ++ base64 rest
  end.

(** A base64 data: URL, the shape of [reader.result] after
    [readAsDataURL]: scheme, media type, encoding marker, payload. *)
Definition data_url (media : jsstring) (bs : list byte) : jsstring :=
  lit "data:" ++ media ++ lit ";base64," ++ base64 bs.

(** The text after the first occurrence of [sep] (all of it is dropped
    when there is none). *)
Fixpoint after_first (sep : code_unit) (s : jsstring) : jsstring :=
  match s with
  | [] => []
  | c :: rest => if unit_eqb c sep then rest else after_first sep rest
  end.

End DataURL.

(* ------------------------------------------------------------------ *)
(** ** The page *)

(** The element handles the script looks up by id. *)
Inductive element_id :=
| passwordOverlay | passwordInput | passwordSubmit | passwordError
| fileInput | generateBtn | loading | results | error
| flashcardsContainer | resultsCount | downloadBtn.

Definition element_id_eq_dec (a b : element_id) : {a = b} + {a <> b}.
Proof. decide equality. Defined.

Record File := {
  name : jsstring;        (* display name *)
  type : jsstring;        (* declared media type *)
  content : list byte
}.

(** The two texts a flashcard shows. *)
Record card := { question : jsstring; answer : jsstring }.

(** A child built by [createFlashcardElement]: a div with a class name and
    the markup assigned to its [innerHTML]. *)
Record flashcard_element := { className : jsstring; innerHTML : jsstring }.

(** The properties the script reads or writes on its elements. *)
Record element := {
  hidden : bool;                        (* 'hidden' is in classList *)
  textContent : jsstring;
  value : jsstring;
  disabled : bool;
  files : list File;
  children : list flashcard_element
}.

Record page := {
  document : element_id -> element;
  sessionStorage : option jsstring;     (* the item 'authenticated' *)
  currentFlashcards : option Json.json  (* a value, [None] for undefined *)
}.

(** What a handler asks of the platform. *)
Inductive effect :=
| Fetch (url body : jsstring)                   (* POST, JSON content type *)
| Focus (target : element_id)
| Download (filename mime text : jsstring).     (* click on a blob link *)

(** A value that was thrown or rejected with: an Error object with its
    message, or an event object, which has none. *)
Inductive thrown :=
| ErrorObject (message : jsstring)
| EventObject.

Definition message (e : thrown) : option jsstring :=
  match e with
  | ErrorObject m => Some m
  | EventObject => None
  end.

(** How an awaited promise settles. *)
Inductive outcome (A : Type) :=
| Resolved (a : A)
| Rejected (e : thrown).
Arguments Resolved {A} a.
Arguments Rejected {A} e.

(** Response bodies, by the properties the script reads: the two flags by
    their truth, [flashcards] as the value that came out of the JSON text
    ([None] when the body has no such property), [error] as a text. *)
Module Verify.
Record response := { success : bool; authenticated : bool }.
End Verify.

Module Generate.
Record response := {
  success : bool;
  flashcards : option Json.json;
  error : option jsstring
}.
End Generate.

(** *** Element updates *)

Definition with_element (id : element_id) (f : element -> element) (p : page)
  : page :=
  {| document := fun j => if element_id_eq_dec j id then f (document p j)
                          else document p j;
     sessionStorage := sessionStorage p;
     currentFlashcards := currentFlashcards p |}.

Definition set_hidden (b : bool) (e : element) : element :=
  {| hidden := b; textContent := textContent e; value := value e;
     disabled := disabled e; files := files e; children := children e |}.

Definition set_text (t : jsstring) (e : element) : element :=
  {| hidden := hidden e; textContent := t; value := value e;
     disabled := disabled e; files := files e; children := children e |}.

Definition set_value_of (v : jsstring) (e : element) : element :=
  {| hidden := hidden e; textContent := textContent e; value := v;
     disabled := disabled e; files := files e; children := children e |}.

Definition set_disabled_of (b : bool) (e : element) : element :=
  {| hidden := hidden e; textContent := textContent e; value := value e;
     disabled := b; files := files e; children := children e |}.

Definition set_files_of (fs : list File) (e : element) : element :=
  {| hidden := hidden e; textContent := textContent e; value := value e;
     disabled := disabled e; files := fs; children := children e |}.

Definition set_children (cs : list flashcard_element) (e : element) : element :=
  {| hidden := hidden e; textContent := textContent e; value := value e;
     disabled := disabled e; files := files e; children := cs |}.

Definition classList_add_hidden (id : element_id) : page -> page :=
  with_element id (set_hidden true).
Definition classList_remove_hidden (id : element_id) : page -> page :=
  with_element id (set_hidden false).
Definition set_textContent (id : element_id) (t : jsstring) : page -> page :=
  with_element id (set_text t).
Definition set_value (id : element_id) (v : jsstring) : page -> page :=
  with_element id (set_value_of v).
Definition set_disabled (id : element_id) (b : bool) : page -> page :=
  with_element id (set_disabled_of b).
Definition set_files (id : element_id) (fs : list File) : page -> page :=
  with_element id (set_files_of fs).
Definition clear_innerHTML (id : element_id) : page -> page :=
  with_element id (set_children []).
Definition appendChild (id : element_id) (c : flashcard_element) : page -> page :=
  with_element id (fun e => set_children (children e ++ [c]) e).

Definition sessionStorage_setItem (v : jsstring) (p : page) : page :=
  {| document := document p; sessionStorage := Some v;
     currentFlashcards := currentFlashcards p |}.

Definition set_currentFlashcards (v : option Json.json) (p : page) : page :=
  {| document := document p; sessionStorage := sessionStorage p;
     currentFlashcards := v |}.

(** Statements of a handler, in source order. *)
Notation "p |> f" := (f p) (at level 45, left associativity, only parsing).

(** [array.forEach((x, index) => ...)] on a state, for a callback that
    may throw: the loop ends at the first call that does, and what the
    earlier calls did stays done.  The flag tells whether the loop ran to
    its end. *)
Fixpoint forEach {A St : Type} (f : A -> nat -> St -> St * bool) (l : list A)
         (index : nat) (s : St) : St * bool :=
  match l with
  | [] => (s, true)
  | x :: rest =>
      match f x index s with
      | (s', true) => forEach f rest (S index) s'
      | (s', false) => (s', false)
      end
  end.

(** *** Values read from a response *)

(** An own property of an object that came out of JSON text. *)
Fixpoint lookup (k : jsstring) (m : list (jsstring * Json.json))
  : option Json.json :=
  match m with
  | [] => None
  | (k', v) :: rest => if str_eqb k k' then Some v else lookup k rest
  end.

(** [v.k] for a value [v] other than null and a name [k] that no
    prototype defines: the member of an object, undefined on anything
    else. *)
Definition property (k : string) (v : Json.json) : option Json.json :=
  match v with
  | Json.JObject m => lookup (lit k) m
  | _ => None
  end.

(** ToString of a value that came out of JSON text: an array joins its
    elements with commas, null ones as empty texts. *)
Fixpoint ToString (v : Json.json) : jsstring :=
  match v with
  | Json.JNull => lit "null"
  | Json.JBool true => lit "true"
  | Json.JBool false => lit "false"
  | Json.JString s => s
  | Json.JArray elements =>
      Json.join [COMMA]
        (map (fun x => match x with Json.JNull => [] | _ => ToString x end)
             elements)
  | Json.JObject _ => lit "[object Object]"
  end.

(** The text a template literal puts in for [${x}]. *)
Definition interpolated (x : option Json.json) : jsstring :=
  match x with
  | Some v => ToString v
  | None => lit "undefined"
  end.

(** The text an assignment to [textContent] stores: undefined and null
    count as the empty text. *)
Definition as_textContent (x : option Json.json) : jsstring :=
  match x with
  | None | Some Json.JNull => []
  | Some v => ToString v
  end.

(* ------------------------------------------------------------------ *)
(** ** The script *)

(** Lines 6-9 and 72: what runs when the document has loaded. *)
Definition DOMContentLoaded (p : page) : page :=
  let isAuthenticated :=
    match sessionStorage p with
    | Some v => str_eqb v (lit "true")
    | None => false
    end in
  let p := if isAuthenticated then classList_add_hidden passwordOverlay p else p in
  set_currentFlashcards (Some (Json.JArray [])) p.

(** *** Access gate (lines 16-60) *)

Definition verify_request (enteredPassword : jsstring) : effect :=
  Fetch (lit "/api/verify_password")
        (Json.stringify
           (Json.JObject [(lit "password", Json.JString enteredPassword)])).

(** [checkPassword] from the point where [response.json()] has settled;
    a rejected fetch, an unreadable body and a body that is not an object
    all arrive in the catch clause. *)
Definition checkPassword_settled (reply : outcome Verify.response) (p : page)
  : page * list effect :=
  match reply with
  | Resolved data =>
      if Verify.success data && Verify.authenticated data then
        (p |> sessionStorage_setItem (lit "true")
           |> classList_add_hidden passwordOverlay
           |> classList_add_hidden passwordError
           |> set_value passwordInput [],
         [])
      else
        (p |> classList_remove_hidden passwordError
           |> set_value passwordInput [],
         [Focus passwordInput])
  | Rejected _ =>
      (p |> set_textContent passwordError
              (CROSS_MARK ++ lit " Error verifying password")
         |> classList_remove_hidden passwordError
         |> set_value passwordInput [],
       [])
  end.

(** One whole run of [checkPassword]: the request carries the field's
    value, then the reply is handled. *)
Definition checkPassword (reply : outcome Verify.response) (p : page)
  : page * list effect :=
  let enteredPassword := value (document p passwordInput) in
  let (p', effects) := checkPassword_settled reply p in
  (p', verify_request enteredPassword :: effects).

(** The keypress listener of the password field (lines 11-15). *)
Definition passwordInput_keypress (key : jsstring)
           (reply : outcome Verify.response) (p : page) : page * list effect :=
  if str_eqb key (lit "Enter") then checkPassword reply p else (p, []).

(** *** File intake (lines 74-83) *)

Definition default_label : jsstring := BRAIN ++ lit " Generate Flashcards".

Definition fileInput_change (p : page) : page :=
  match files (document p fileInput) with
  | file :: _ =>
      p |> set_disabled generateBtn false
        |> set_textContent generateBtn (BRAIN ++ lit " Generate from " ++ name file)
  | [] =>
      p |> set_disabled generateBtn true
        |> set_textContent generateBtn default_label
  end.

(** The user picks [selection] in the file dialog: the platform updates
    [fileInput.files], then fires the change event. *)
Definition select_files (selection : list File) (p : page) : page :=
  fileInput_change (set_files fileInput selection p).

(** *** Result renderer (lines 139-190) *)

Definition showLoading (p : page) : page :=
  p |> classList_remove_hidden loading
    |> classList_add_hidden results
    |> classList_add_hidden error.

Definition showError (msg : jsstring) (p : page) : page :=
  p |> classList_add_hidden loading
    |> classList_add_hidden results
    |> classList_remove_hidden error
    |> set_textContent error (CROSS_MARK ++ lit " " ++ msg).

(** [div.textContent = text; div.innerHTML.replace(/\n/g, '<br>')]. *)
Definition escapeHtml (text : jsstring) : jsstring :=
  replace_newlines (lit "<br>") (Html.escape_string text).

(** The template literal of [createFlashcardElement], piece by piece. *)
Definition line (indent : nat) (body : jsstring) : jsstring :=
  repeat SPACE indent ++ body ++ [LF].

Definition attr (k v : string) : jsstring :=
  lit k ++ [61%N; DQUOTE] ++ lit v ++ [DQUOTE].

Definition number_div (label : jsstring) : jsstring :=
  lit "<div " ++ attr "class" "flashcard-number" ++ lit ">" ++ label ++ lit "</div>".

Definition text_div (escaped : jsstring) : jsstring :=
  lit "<div>" ++ escaped ++ lit "</div>".

Definition face (cls : string) (label escaped : jsstring) : jsstring :=
  line 16 (lit "<div " ++ attr "class" cls ++ lit ">")
    ++ line 20 (number_div label)
    ++ line 20 (text_div escaped)
    ++ line 16 (lit "</div>").

Definition flashcard_markup (front_label front back_label back : jsstring)
  : jsstring :=
  [LF]
    ++ line 12 (lit "<div " ++ attr "class" "flashcard-inner" ++ lit " "
                  ++ attr "onclick" "this.classList.toggle('flip')" ++ lit ">")
    ++ face "flashcard-front" front_label front
    ++ face "flashcard-back" back_label back
    ++ line 12 (lit "</div>")
    ++ repeat SPACE 8.

Definition createFlashcardElement (c : card) (number : nat) : flashcard_element :=
  {| className := lit "flashcard";
     innerHTML :=
       flashcard_markup
         (lit "Q" ++ Number_toString number) (escapeHtml (question c))
         (lit "A" ++ Number_toString number) (escapeHtml (answer c)) |}.

(** What lines 174 and 178 read off one element of the list:
    [card.question] and [card.answer], as the assignment of line 188 takes
    them.  On null the property access throws, and there are no texts. *)
Definition card_texts (v : Json.json) : option card :=
  match v with
  | Json.JNull => None
  | _ => Some {| question := as_textContent (property "question" v);
                 answer := as_textContent (property "answer" v) |}
  end.

(** The body of the loop of [showResults] (lines 154-155). *)
Definition append_card (v : Json.json) (index : nat) (p : page) : page * bool :=
  match card_texts v with
  | Some c =>
      let flashcardEl := createFlashcardElement c (index + 1) in
      (appendChild flashcardsContainer flashcardEl p, true)
  | None => (p, false)
  end.

(** The text of [${flashcards.length}] on line 150; none when reading the
    property throws (undefined and null have no properties). *)
Definition length_text (flashcards : option Json.json) : option jsstring :=
  match flashcards with
  | None | Some Json.JNull => None
  | Some (Json.JArray l) => Some (Number_toString (List.length l))
  | Some (Json.JString s) => Some (Number_toString (List.length s))
  | Some v => Some (interpolated (property "length" v))
  end.

(** Lines 145-157.  The flag tells whether the function ran to its end;
    when it did not, the engine threw a TypeError: at line 150 for a value
    with no properties, at line 153 for a value that is no list (it has no
    [forEach] to call), inside the loop for a null element. *)
Definition showResults (flashcards : option Json.json) (p : page) : page * bool :=
  let p :=
    p |> classList_add_hidden loading
      |> classList_remove_hidden results
      |> classList_add_hidden error in
  match length_text flashcards with
  | None => (p, false)
  | Some count =>
      let p :=
        p |> set_textContent resultsCount
               (CHECK_MARK ++ lit " Generated " ++ count ++ lit " flashcards!")
          |> clear_innerHTML flashcardsContainer in
      match flashcards with
      | Some (Json.JArray l) => forEach append_card l 0 p
      | _ => (p, false)
      end
  end.

(** *** Generation request (lines 85-116) *)

(** The object literal passed to [JSON.stringify]: a property whose value
    is undefined is left out of the text. *)
Definition generate_body (file : File) (base64File : jsstring) : Json.json :=
  Json.JObject
    (match nth_error (split COMMA base64File) 1 with
     | Some payload => [(lit "file_content", Json.JString payload)]
     | None => []
     end
     ++ [(lit "file_type", Json.JString (type file))]).

Definition generate_request (file : File) (base64File : jsstring) : effect :=
  Fetch (lit "/api/generate_flashcards")
        (Json.stringify (generate_body file base64File)).

(** What the file reader fires after [readAsDataURL]: load, with the media
    part the platform puts in the URL, or error. *)
Inductive FileReader_event :=
| onload (media : jsstring)
| onerror.

(** [reader.result] after a load: the data: URL of the file's bytes. *)
Definition readAsDataURL (file : File) (media : jsstring) : jsstring :=
  DataURL.data_url media (content file).

(** Lines 130-137: resolves with [reader.result], rejects with the error
    event itself. *)
Definition fileToBase64 (file : File) (fired : FileReader_event)
  : outcome jsstring :=
  match fired with
  | onload media => Resolved (readAsDataURL file media)
  | onerror => Rejected EventObject
  end.

(** How the platform answers one click: what the reader fires, what
    [response.json()] settles with when a request goes out, and the message
    the engine gives the TypeError it throws when the rendering cannot go on
    (engines word it differently). *)
Record generation := {
  reader : FileReader_event;
  reply : outcome Generate.response;
  type_error : jsstring
}.

Definition failure_text (err : thrown) : jsstring :=
  concat_undefined (lit "Failed to generate flashcards: ") (message err).

(** The handler after [showLoading], for the file captured at the click.
    Line 108 stores the list before line 109 renders it, so a rendering
    that throws arrives in the catch clause with the list already
    stored. *)
Definition generate_settled (file : File) (g : generation) (p : page)
  : page * list effect :=
  match fileToBase64 file (reader g) with
  | Rejected err => (showError (failure_text err) p, [])
  | Resolved base64File =>
      let request := generate_request file base64File in
      match reply g with
      | Rejected err => (showError (failure_text err) p, [request])
      | Resolved data =>
          if Generate.success data then
            let p := set_currentFlashcards (Generate.flashcards data) p in
            match showResults (Generate.flashcards data) p with
            | (p, true) => (p, [request])
            | (p, false) =>
                (showError (failure_text (ErrorObject (type_error g))) p,
                 [request])
            end
          else
            (showError
               (or_else (Generate.error data) (lit "Failed to generate flashcards"))
               p,
             [request])
      end
  end.

(** The synchronous start of the click handler (lines 86-89): the file
    it captures, if it goes on. *)
Definition generate_started (p : page) : page * option File :=
  match files (document p fileInput) with
  | [] => (p, None)
  | file :: _ => (showLoading p, Some file)
  end.

(** One whole run of the click handler. *)
Definition generateBtn_click (g : generation) (p : page) : page * list effect :=
  match generate_started p with
  | (p', None) => (p', [])
  | (p', Some file) => generate_settled file g p'
  end.

(** *** Export (lines 118-128) *)

(** [v.length === 0] for a value other than undefined and null: true of
    the empty list and of the empty text. *)
Definition length_is_zero (v : Json.json) : bool :=
  match v with
  | Json.JArray [] => true
  | Json.JString [] => true
  | _ => false
  end.

(** The stored value is serialized as it is: every object with the
    members it came with, in their order.  On undefined and null reading
    [length] throws and the listener ends there. *)
Definition downloadBtn_click (p : page) : page * list effect :=
  match currentFlashcards p with
  | None | Some Json.JNull => (p, [])
  | Some v =>
      if length_is_zero v then (p, [])
      else
        let dataStr := Json.stringify_indented 2 v in
        let dataBlob := Blob [dataStr] in
        (p, [Download (lit "flashcards.json") (lit "application/json") dataBlob])
  end.

(* ------------------------------------------------------------------ *)
(** ** Runs of the page *)

(** The segments of handler code the event loop runs one at a time.  A
    handler that awaits is cut at its first await: [PasswordSubmitted] and
    [GenerateClicked] are the synchronous starts, [PasswordSettled] and
    [GenerateSettled] the rest, run when the platform has answered, in
    whatever order the answers come. *)
Inductive event :=
| PasswordTyped (text : jsstring)
| PasswordSubmitted
| PasswordSettled (reply : outcome Verify.response)
| FilesSelected (selection : list File)
| GenerateClicked
| GenerateSettled (file : File) (g : generation)
| DownloadClicked.

Definition step (e : event) (p : page) : page * list effect :=
  match e with
  | PasswordTyped text => (set_value passwordInput text p, [])
  | PasswordSubmitted => (p, [verify_request (value (document p passwordInput))])
  | PasswordSettled reply => checkPassword_settled reply p
  | FilesSelected selection => (select_files selection p, [])
  | GenerateClicked => (fst (generate_started p), [])
  | GenerateSettled file g => generate_settled file g p
  | DownloadClicked => downloadBtn_click p
  end.

Fixpoint run (events : list event) (p : page) : page :=
  match events with
  | [] => p
  | e :: rest => run rest (fst (step e p))
  end.



(** The elements [showResults] builds for a list of cards, numbered from
    [index + 1]. *)
Fixpoint rendered (cs : list card) (index : nat) : list flashcard_element :=
  match cs with
  | [] => []
  | c :: rest => createFlashcardElement c (index + 1) :: rendered rest (S index)
  end.

(** A question/answer pair: an object with a text under [question] and a
    text under [answer], whatever else it has and in whatever order. *)
Definition read_card (v : Json.json) : option card :=
  match v with
  | Json.JObject m =>
      match lookup (lit "question") m, lookup (lit "answer") m with
      | Some (Json.JString q), Some (Json.JString a) =>
          Some {| question := q; answer := a |}
      | _, _ => None
      end
  | _ => None
  end.

Fixpoint read_cards (l : list Json.json) : option (list card) :=
  match l with
  | [] => Some []
  | v :: rest =>
      match read_card v, read_cards rest with
      | Some c, Some cs => Some (c :: cs)
      | _, _ => None
      end
  end.

(** A page for examples: every element visible, empty and enabled. *)
Definition blank_element : element :=
  {| hidden := false; textContent := []; value := []; disabled := false;
     files := []; children := [] |}.

Definition blank_page : page :=
  {| document := fun _ => blank_element;
     sessionStorage := None;
     currentFlashcards := Some (Json.JArray []) |}.

(** *** What the claims speak of *)


(** The texts of the elements of a list, when none of them is null. *)
Fixpoint all_texts (l : list Json.json) : option (list card) :=
  match l with
  | [] => Some []
  | v :: rest =>
      match card_texts v, all_texts rest with
      | Some c, Some cs => Some (c :: cs)
      | _, _ => None
      end
  end.




(** Whether the rendering of a value runs to its end (the page it starts
    from makes no difference to that). *)
Definition renders (v : option Json.json) : bool :=
  snd (showResults v blank_page).


(** The encoding, the request or the reading of the response threw [e]. *)
Definition failed_with (g : generation) (e : thrown) : Prop :=
  (reader g = onerror /\ e = EventObject)
  \/ exists media, reader g = onload media /\ reply g = Rejected e.

(** The response [data] came back well-formed and negative. *)
Definition refused_with (g : generation) (data : Generate.response) : Prop :=
  (exists media, reader g = onload media)
  /\ reply g = Resolved data /\ Generate.success data = false.

(** *** Concrete inputs for the examples *)

Definition sample_card : card :=
  {| question := lit "2+2?"; answer := lit "4" |}.

Definition sample_file : File :=
  {| name := lit "notes.txt"; type := lit "text/plain";
     content := [x48; x65; x6c; x6c; x6f] |}.

(** The same pair as a backend may send it: answer first, and with a
    member the script never reads. *)
Definition sample_object : Json.json :=
  Json.JObject [(lit "answer", Json.JString (lit "4"));
                (lit "question", Json.JString (lit "2+2?"));
                (lit "topic", Json.JString (lit "sums"))].

Definition sample_success : Generate.response :=
  {| Generate.success := true;
     Generate.flashcards := Some (Json.JArray [sample_object]);
     Generate.error := None |}.

Definition sample_generation : generation :=
  {| reader := onload (type sample_file);
     reply := Resolved sample_success;
     type_error := lit "Cannot read properties of null" |}.

Definition page_with_file : page :=
  set_files fileInput [sample_file] blank_page.

Definition sample_refusal : Generate.response :=
  {| Generate.success := false;
     Generate.flashcards := None;
     Generate.error := Some (lit "Unsupported file type") |}.

Definition sample_refused : generation :=
  {| reader := onload (type sample_file);
     reply := Resolved sample_refusal;
     type_error := lit "Cannot read properties of null" |}.

Definition sample_run : list event :=
  [FilesSelected [sample_file]; GenerateClicked;
   GenerateSettled sample_file sample_generation;
   GenerateClicked; GenerateSettled sample_file sample_refused].





(** A read that fails. *)
Definition unreadable : generation :=
  {| reader := onerror;
     reply := Resolved sample_success;
     type_error := lit "Cannot read properties of null" |}.

(** *** What the further properties speak of *)

(** The test of line 6 on the stored item. *)
Definition is_authenticated (p : page) : bool :=
  match sessionStorage p with
  | Some v => str_eqb v (lit "true")
  | None => false
  end.

(** A verification reply that takes the accepting branch of line 30. *)
Definition accepting (reply : outcome Verify.response) : bool :=
  match reply with
  | Resolved data => Verify.success data && Verify.authenticated data
  | Rejected _ => false
  end.

(** The three panels of the generation area, by visibility. *)
Definition panels (p : page) : bool * bool * bool :=
  (hidden (document p loading), hidden (document p results),
   hidden (document p error)).

(** Exactly one of the three panels is visible. *)
Definition one_panel (p : page) : Prop :=
  panels p = (false, true, true)
  \/ panels p = (true, false, true)
  \/ panels p = (true, true, false).

(** The generate button is disabled exactly when no file is selected. *)
Definition button_in_step (p : page) : Prop :=
  disabled (document p generateBtn)
  = match files (document p fileInput) with
    | [] => true
    | _ :: _ => false
    end.

(** The text before the first occurrence of [sep] (all of it when there
    is none). *)
Fixpoint before_first (sep : code_unit) (s : jsstring) : jsstring :=
  match s with
  | [] => []
  | c :: rest => if unit_eqb c sep then [] else c :: before_first sep rest
  end.

Definition occurs (sep : code_unit) (s : jsstring) : bool :=
  existsb (unit_eqb sep) s.

(** The units [escapeHtml] rewrites. *)
Definition special (c : code_unit) : bool :=
  unit_eqb c AMP || unit_eqb c NBSP || unit_eqb c LT || unit_eqb c GT
  || unit_eqb c LF.

(** Counting the tags and the line breaks of element content. *)
Definition is_markup (t : Html.token) : bool :=
  match t with Html.Markup => true | _ => false end.

Definition is_break (t : Html.token) : bool :=
  match t with Html.LineBreak => true | _ => false end.

Definition tags (s : jsstring) : nat :=
  List.length (filter is_markup (Html.tokenize 0 s)).

Definition breaks (s : jsstring) : nat :=
  List.length (filter is_break (Html.tokenize 0 s)).

Definition newlines (text : jsstring) : nat :=
  List.length (filter (fun c => unit_eqb c LF) text).

(** Content that is read the same whatever follows it. *)
Definition self_contained (a : jsstring) : Prop :=
  forall rest, Html.tokenize 0 (a ++ rest)
               = Html.tokenize 0 a ++ Html.tokenize 0 rest.

(** A unit that is character data on its own. *)
Definition character_data (c : code_unit) : bool :=
  negb (unit_eqb c LT) && negb (unit_eqb c AMP).

(** The segments that read the page and write nothing on it. *)
Definition inert (e : event) : bool :=
  match e with
  | PasswordSubmitted | DownloadClicked => true
  | _ => false
  end.

(** The effects of a run, in order. *)
Fixpoint run_effects (events : list event) (p : page) : list effect :=
  match events with
  | [] => []
  | e :: rest => snd (step e p) ++ run_effects rest (fst (step e p))
  end.

Definition is_fetch (e : effect) : bool :=
  match e with Fetch _ _ => true | _ => false end.

(** The only things the script asks of the platform: a request to one of
    its two endpoints, focus on the password field, the export file. *)
Definition permitted (e : effect) : Prop :=
  match e with
  | Fetch url _ =>
      url = lit "/api/verify_password" \/ url = lit "/api/generate_flashcards"
  | Focus target => target = passwordInput
  | Download filename mime _ =>
      filename = lit "flashcards.json" /\ mime = lit "application/json"
  end.

Definition sample_password : jsstring :=
  lit "pa" ++ [DQUOTE; BACKSLASH; LF] ++ lit "ss".

Definition sample_verified : Verify.response :=
  {| Verify.success := true; Verify.authenticated := true |}.

(* ------------------------------------------------------------------ *)
(** ** Proof tools *)

(** Case analysis on a test of a code unit against a constant. *)
Ltac unit_cases c k :=
  let E := fresh "E" in
  destruct (unit_eqb c k) eqn:E;
  [apply (proj1 (N.eqb_eq c k)) in E; try subst c
  |apply (proj1 (N.eqb_neq c k)) in E].

(** Right-nest the concatenations of a goal. *)
Ltac flatten :=
  repeat progress (cbn [app]; rewrite <- ?app_assoc).

(** Decide the comparisons of a goal and leave arithmetic to [lia]. *)
Ltac compare_units :=
  repeat match goal with
    | |- context [(?a <=? ?b)%N] => destruct (N.leb_spec a b)
    | |- context [(?a <? ?b)%N] => destruct (N.ltb_spec a b)
    | |- context [unit_eqb ?a ?b] => destruct (N.eqb_spec a b); unfold unit_eqb
    | |- context [(?a =? ?b)%N] => destruct (N.eqb_spec a b)
    end; cbn [andb orb]; try lia.

(** A fixed piece of markup, measured by reading it. *)
Ltac measure_piece :=
  split; [intros rest; reflexivity|split; reflexivity].

(** Measure a concatenation piece by piece: [combine] joins the measures
    of two pieces. *)
Ltac measure_with combine :=
  lazymatch goal with
  | |- _ (?a ++ ?b) /\ _ =>
      apply combine; [measure_with combine|measure_with combine]
  | |- _ ?e /\ _ =>
      first [match goal with
             | H : _ ?e' /\ _ |- _ => constr_eq e e'; exact H
             end
            |measure_piece]
  end.

(* ================================================================== *)
(** * Properties *)

(** ** Code units and small list facts *)

Lemma unit_eqb_eq (a b : code_unit) : unit_eqb a b = true <-> a = b.
Proof. unfold unit_eqb. apply N.eqb_eq. Qed.

Lemma unit_eqb_neq (a b : code_unit) : unit_eqb a b = false <-> a <> b.
Proof. unfold unit_eqb. apply N.eqb_neq. Qed.

Lemma str_eqb_refl (s : jsstring) : str_eqb s s = true.
Proof.
  induction s as [|c s IH]; simpl; [reflexivity|].
  unfold unit_eqb. now rewrite N.eqb_refl.
Qed.

(** ** Escaping: what a reader of the element content sees *)

Section Escaping.
Import Html.

Lemma escapeHtml_cons (c : code_unit) (text : jsstring) :
  escapeHtml (c :: text)
  = replace_newlines (lit "<br>") (escape_unit c) ++ escapeHtml text.
Proof.
  unfold escapeHtml, replace_newlines, escape_string. simpl.
  now rewrite flat_map_app.
Qed.

(** One source unit is read back as one token, whatever follows. *)
Lemma tokenize_unit (c : code_unit) (rest : jsstring) :
  tokenize 0 (replace_newlines (lit "<br>") (escape_unit c) ++ rest)
  = (if unit_eqb c LF then LineBreak else Chr c) :: tokenize 0 rest.
Proof.
  unfold escape_unit.
  unit_cases c AMP; [reflexivity|].
  unit_cases c NBSP; [reflexivity|].
  unit_cases c LT; [reflexivity|].
  unit_cases c GT; [reflexivity|].
  unfold replace_newlines. simpl flat_map.
  unit_cases c LF; [reflexivity|].
  simpl.
  apply unit_eqb_neq in E1, E.
  now rewrite E1, E.
Qed.

Lemma tokenize_escapeHtml_app (text rest : jsstring) :
  tokenize 0 (escapeHtml text ++ rest) = shown text ++ tokenize 0 rest.
Proof.
  induction text as [|c text IH]; [reflexivity|].
  rewrite escapeHtml_cons, <- app_assoc, tokenize_unit, IH.
  reflexivity.
Qed.

Lemma shown_no_markup (text : jsstring) : ~ In Markup (shown text).
Proof.
  unfold shown. rewrite in_map_iff. intros [c [H _]].
  destruct (unit_eqb c LF); discriminate.
Qed.

Lemma escapeHtml_no_newline (text : jsstring) : ~ In LF (escapeHtml text).
Proof.
  induction text as [|c text IH]; [intros []|].
  rewrite escapeHtml_cons, in_app_iff. intros [H|H]; [|now apply IH].
  revert H. unfold escape_unit.
  unit_cases c AMP; [vm_compute; intuition discriminate|].
  unit_cases c NBSP; [vm_compute; intuition discriminate|].
  unit_cases c LT; [vm_compute; intuition discriminate|].
  unit_cases c GT; [vm_compute; intuition discriminate|].
  unfold replace_newlines. simpl flat_map.
  unit_cases c LF; [vm_compute; intuition discriminate|].
  simpl. intros [H|[]]. congruence.
Qed.

End Escaping.

(** ** JSON text: strings read back *)

Section JsonStrings.
Import Json.

Lemma hex_value_digit (n : N) :
  (n < 16)%N -> hex_value (hex_digit n) = Some n.
Proof.
  intros Hn. unfold hex_value, hex_digit.
  compare_units; f_equal; lia.
Qed.

Lemma hex4_unicode_escape (c : code_unit) :
  (c < 65536)%N ->
  hex4 (hex_digit (c / 4096)) (hex_digit ((c / 256) mod 16))
       (hex_digit ((c / 16) mod 16)) (hex_digit (c mod 16)) = Some c.
Proof.
  intros Hc. unfold hex4.
  rewrite (hex_value_digit (n := c / 4096))
    by (apply N.Div0.div_lt_upper_bound; lia).
  rewrite !hex_value_digit by (apply N.mod_lt; lia).
  f_equal.
  replace (c / 256)%N with (c / 16 / 16)%N by (now rewrite N.Div0.div_div).
  replace (c / 4096)%N with (c / 16 / 16 / 16)%N by (now rewrite !N.Div0.div_div).
  pose proof (N.Div0.div_mod c 16).
  pose proof (N.Div0.div_mod (c / 16) 16).
  pose proof (N.Div0.div_mod (c / 16 / 16) 16).
  generalize dependent (c mod 16)%N.
  generalize dependent ((c / 16) mod 16)%N.
  generalize dependent ((c / 16 / 16) mod 16)%N.
  generalize dependent (c / 16 / 16 / 16)%N.
  generalize dependent (c / 16 / 16)%N.
  generalize dependent (c / 16)%N.
  intros. lia.
Qed.

Lemma parse_string_unicode (h1 h2 h3 h4 : code_unit) (rest : jsstring) :
  parse_string (BACKSLASH :: 117%N :: h1 :: h2 :: h3 :: h4 :: rest)
  = match hex4 h1 h2 h3 h4 with
    | Some u => prepend u (parse_string rest)
    | None => None
    end.
Proof.
  change (parse_string (BACKSLASH :: 117%N :: h1 :: h2 :: h3 :: h4 :: rest))
    with (match hex4 h1 h2 h3 h4, parse_string rest with
          | Some u, Some (str, r) => Some (u :: str, r)
          | _, _ => None
          end).
  destruct (hex4 h1 h2 h3 h4); [|reflexivity].
  unfold prepend. destruct (parse_string rest) as [[? ?]|]; reflexivity.
Qed.

Lemma parse_string_plain (c : code_unit) (rest : jsstring) :
  c <> DQUOTE -> c <> BACKSLASH -> (32 <= c)%N ->
  parse_string (c :: rest) = prepend c (parse_string rest).
Proof.
  intros H1 H2 H3. cbn [parse_string].
  apply unit_eqb_neq in H1, H2. rewrite H1, H2.
  destruct (N.ltb_spec c 32); [lia|].
  unfold prepend. destruct (parse_string rest) as [[? ?]|]; reflexivity.
Qed.

Lemma surrogate_range (c : code_unit) :
  is_leading_surrogate c || is_trailing_surrogate c = true ->
  (0xD800 <= c <= 0xDFFF)%N.
Proof.
  unfold is_leading_surrogate, is_trailing_surrogate.
  compare_units; intros; try discriminate; lia.
Qed.

Lemma parse_string_escaped (c : code_unit) (rest : jsstring) :
  (c < 65536)%N ->
  parse_string (unicode_escape c ++ rest) = prepend c (parse_string rest).
Proof.
  intros Hc.
  change (unicode_escape c ++ rest)
    with (BACKSLASH :: 117%N :: hex_digit (c / 4096)
            :: hex_digit ((c / 256) mod 16) :: hex_digit ((c / 16) mod 16)
            :: hex_digit (c mod 16) :: rest).
  rewrite parse_string_unicode, hex4_unicode_escape by exact Hc.
  reflexivity.
Qed.

(** A unit quoted on its own is read back as that unit. *)
Lemma parse_string_quote_unit (c : code_unit) (rest : jsstring) :
  parse_string (quote_unit c ++ rest) = prepend c (parse_string rest).
Proof.
  unfold quote_unit.
  unit_cases c 8%N; [reflexivity|].
  unit_cases c 9%N; [reflexivity|].
  unit_cases c 10%N; [reflexivity|].
  unit_cases c 12%N; [reflexivity|].
  unit_cases c 13%N; [reflexivity|].
  unit_cases c DQUOTE; [reflexivity|].
  unit_cases c BACKSLASH; [reflexivity|].
  destruct (N.ltb_spec c 32) as [Hlt|Hge].
  - simpl orb. apply parse_string_escaped. lia.
  - simpl orb.
    destruct (is_leading_surrogate c || is_trailing_surrogate c) eqn:Hs.
    + apply surrogate_range in Hs. apply parse_string_escaped. lia.
    + now apply parse_string_plain.
Qed.

Lemma leading_is_plain (c : code_unit) :
  is_leading_surrogate c = true ->
  c <> DQUOTE /\ c <> BACKSLASH /\ (32 <= c)%N.
Proof.
  intros H.
  assert (R : (0xD800 <= c <= 0xDFFF)%N)
    by (apply surrogate_range; rewrite H; reflexivity).
  unfold DQUOTE, BACKSLASH. lia.
Qed.

Lemma trailing_is_plain (c : code_unit) :
  is_trailing_surrogate c = true ->
  c <> DQUOTE /\ c <> BACKSLASH /\ (32 <= c)%N.
Proof.
  intros H.
  assert (R : (0xD800 <= c <= 0xDFFF)%N)
    by (apply surrogate_range; rewrite H; apply orb_true_r).
  unfold DQUOTE, BACKSLASH. lia.
Qed.

Lemma parse_string_closing (rest : jsstring) :
  parse_string (DQUOTE :: rest) = Some ([], rest).
Proof. reflexivity. Qed.

Lemma parse_quote_units_bounded (n : nat) :
  forall s rest, List.length s <= n ->
    parse_string (quote_units s ++ DQUOTE :: rest) = Some (s, rest).
Proof.
  induction n as [|n IH]; intros s rest Hlen.
  - destruct s; [apply parse_string_closing | simpl in Hlen; lia].
  - destruct s as [|c s]; [apply parse_string_closing|].
    simpl in Hlen. cbn [quote_units].
    destruct (is_leading_surrogate c) eqn:Hc.
    + destruct s as [|d s].
      * rewrite parse_string_quote_unit.
        now rewrite parse_string_closing.
      * destruct (is_trailing_surrogate d) eqn:Hd.
        -- destruct (leading_is_plain _ Hc) as (c1 & c2 & c3).
           destruct (trailing_is_plain _ Hd) as (d1 & d2 & d3).
           rewrite <- !app_comm_cons.
           rewrite parse_string_plain, parse_string_plain by assumption.
           rewrite IH by (simpl in Hlen; lia). reflexivity.
        -- rewrite <- app_assoc, parse_string_quote_unit.
           rewrite IH by lia. reflexivity.
    + rewrite <- app_assoc, parse_string_quote_unit.
      rewrite IH by lia. reflexivity.
Qed.

Lemma parse_quote_units (s rest : jsstring) :
  parse_string (quote_units s ++ DQUOTE :: rest) = Some (s, rest).
Proof. apply parse_quote_units_bounded with (n := List.length s). lia. Qed.

End JsonStrings.

(** ** JSON text: values read back *)

Section JsonValues.
Import Json.

Lemma blank_app (a b : jsstring) : blank a -> blank b -> blank (a ++ b).
Proof. unfold blank. intros. apply Forall_app. now split. Qed.

Lemma blank_cons (c : code_unit) (w : jsstring) :
  is_ws c = true -> blank w -> blank (c :: w).
Proof. unfold blank. now constructor. Qed.


Lemma skip_ws_blank (w s : jsstring) : blank w -> skip_ws (w ++ s) = skip_ws s.
Proof.
  induction 1 as [|c w Hc _ IH]; [reflexivity|].
  simpl. now rewrite Hc.
Qed.

Lemma skip_ws_solid (c : code_unit) (s : jsstring) :
  is_ws c = false -> skip_ws (c :: s) = c :: s.
Proof. intros H. simpl. now rewrite H. Qed.

Lemma parse_value_blank (fuel : nat) (w s : jsstring) :
  blank w -> parse_value fuel (w ++ s) = parse_value fuel s.
Proof.
  intros Hw. destruct fuel; [reflexivity|].
  cbn [parse_value]. now rewrite skip_ws_blank.
Qed.

Lemma parse_members_blank (fuel : nat) (w s : jsstring) :
  blank w -> parse_members fuel (w ++ s) = parse_members fuel s.
Proof.
  intros Hw. destruct fuel; [reflexivity|].
  cbn [parse_members]. now rewrite skip_ws_blank.
Qed.

Lemma bracketed_head (o c : code_unit) (gap stepback : jsstring)
      (parts : list jsstring) :
  exists tl, bracketed o c gap stepback parts = o :: tl.
Proof.
  unfold bracketed. destruct parts; [eexists; reflexivity|].
  destruct (is_empty gap); eexists; reflexivity.
Qed.

Lemma serialize_head (gap indent : jsstring) (v : json) :
  exists c tl, serialize gap indent v = c :: tl /\ opens_value c.
Proof.
  assert (O : forall k, In k [110; 116; 102; 34; 91; 123]%N -> opens_value k).
  { intros k Hk. simpl in Hk.
    repeat (destruct Hk as [<-|Hk]; [repeat split; discriminate|]).
    destruct Hk. }
  destruct v as [|[|]|s|l|m]; cbn [serialize].
  - exists 110%N; eexists; split; [reflexivity|apply O; simpl; tauto].
  - exists 116%N; eexists; split; [reflexivity|apply O; simpl; tauto].
  - exists 102%N; eexists; split; [reflexivity|apply O; simpl; tauto].
  - exists 34%N; eexists; split; [reflexivity|apply O; simpl; tauto].
  - destruct (bracketed_head 91%N 93%N gap indent
                (map (serialize gap (indent ++ gap)) l)) as [tl ->].
    exists 91%N, tl; split; [reflexivity|apply O; simpl; tauto].
  - match goal with |- context [bracketed ?o ?c ?g ?i ?ps] =>
      destruct (bracketed_head o c g i ps) as [tl ->] end.
    exists 123%N, tl; split; [reflexivity|apply O; simpl; tauto].
Qed.

(** A non-empty list between brackets: opening, white space, the parts
    separated by a comma and white space, white space, closing. *)
Lemma bracketed_shape (o c : code_unit) (gap stepback : jsstring)
      (p : jsstring) (ps : list jsstring) :
  blank gap -> blank stepback ->
  exists w1 w2, blank w1 /\ blank w2 /\
    bracketed o c gap stepback (p :: ps)
    = o :: w1 ++ join (COMMA :: w1) (p :: ps) ++ w2 ++ [c].
Proof.
  intros Hg Hs. unfold bracketed.
  destruct gap as [|g gap]; cbn [is_empty].
  - exists [], []. repeat split; try constructor.
  - exists (LF :: stepback ++ g :: gap), (LF :: stepback).
    split; [|split].
    + apply blank_cons; [reflexivity|]. now apply blank_app.
    + now apply blank_cons.
    + cbn [app]. rewrite <- !app_assoc. reflexivity.
Qed.

Lemma join_cons2 (sep p q : jsstring) (ps : list jsstring) :
  join sep (p :: q :: ps) = p ++ sep ++ join sep (q :: ps).
Proof. reflexivity. Qed.

(** The first unit of a joined non-empty list is the first unit of its
    first part. *)
Lemma join_head (sep : jsstring) (c : code_unit) (tl : jsstring)
      (ps : list jsstring) :
  exists tl', join sep ((c :: tl) :: ps) = c :: tl'.
Proof. destruct ps; eexists; reflexivity. Qed.

Lemma parse_elements_step (n : nat) (s : jsstring) :
  parse_elements (S n) s
  = match parse_value n s with
    | None => None
    | Some (v, rest) =>
        match skip_ws rest with
        | [] => None
        | c :: rest' =>
            if unit_eqb c COMMA then
              match parse_elements n rest' with
              | Some (l, r) => Some (v :: l, r)
              | None => None
              end
            else if unit_eqb c 93%N then Some ([v], rest')
            else None
        end
    end.
Proof. reflexivity. Qed.

Section Elements.
Variable ser : json -> jsstring.
Variables w1 w2 rest : jsstring.
Hypothesis Hw1 : blank w1.
Hypothesis Hw2 : blank w2.

Lemma parse_elements_join (x : json) (l : list json) :
  Forall (reads_back ser) (x :: l) ->
  forall fuel,
    list_sum (map (fun y => S (size y)) (x :: l)) <= fuel ->
    parse_elements fuel
      (w1 ++ join (COMMA :: w1) (map ser (x :: l)) ++ w2 ++ 93%N :: rest)
    = Some (x :: l, rest).
Proof.
  revert x. induction l as [|y l IH]; intros x Hall fuel Hfuel.
  - destruct fuel as [|n]; [simpl in Hfuel; lia|].
    simpl in Hfuel.
    rewrite parse_elements_step, parse_value_blank by assumption.
    cbn [map join].
    inversion Hall as [|? ? Hx _]; subst.
    rewrite Hx by lia.
    rewrite skip_ws_blank, skip_ws_solid by (assumption || reflexivity).
    reflexivity.
  - destruct fuel as [|n]; [simpl in Hfuel; lia|].
    simpl in Hfuel.
    rewrite parse_elements_step, parse_value_blank by assumption.
    cbn [map]. rewrite join_cons2, <- !app_assoc.
    inversion Hall as [|? ? Hx Hrest]; subst.
    rewrite Hx by lia.
    rewrite <- app_comm_cons, skip_ws_solid by reflexivity.
    change (unit_eqb COMMA COMMA) with true. cbv iota.
    specialize (IH y Hrest n).
    cbn [map] in IH. rewrite IH by (simpl; lia).
    reflexivity.
Qed.
End Elements.

End JsonValues.

Section JsonMembers.
Import Json.

Variable ser : json -> jsstring.
Variables sp w1 w2 rest : jsstring.
Hypothesis Hsp : blank sp.
Hypothesis Hw1 : blank w1.
Hypothesis Hw2 : blank w2.

(** Reading one member, up to what follows its value. *)
Lemma parse_members_step (n : nat) (k : jsstring) (v : json) (after : jsstring) :
  parse_value n (ser v ++ after) = Some (v, after) ->
  parse_members (S n) (member_text ser sp (k, v) ++ after)
  = match skip_ws after with
    | [] => None
    | c :: rest4 =>
        if unit_eqb c COMMA then
          match parse_members n rest4 with
          | Some (m, r) => Some ((k, v) :: m, r)
          | None => None
          end
        else if unit_eqb c 125%N then Some ([(k, v)], rest4)
        else None
    end.
Proof.
  intros Hv.
  replace (member_text ser sp (k, v) ++ after)
    with (DQUOTE :: quote_units k ++ DQUOTE :: 58%N :: sp ++ ser v ++ after)
    by (unfold member_text, QuoteJSONString; cbn [fst snd]; now flatten).
  cbn [parse_members].
  rewrite skip_ws_solid by reflexivity.
  change (unit_eqb DQUOTE DQUOTE) with true. cbv iota.
  rewrite parse_quote_units.
  rewrite skip_ws_solid by reflexivity.
  change (unit_eqb 58%N 58%N) with true. cbv iota.
  rewrite parse_value_blank by assumption.
  rewrite Hv. reflexivity.
Qed.

Lemma parse_members_join (kv : jsstring * json) (m : list (jsstring * json)) :
  Forall (fun kv => reads_back ser (snd kv)) (kv :: m) ->
  forall fuel,
    list_sum (map (fun kv => S (size (snd kv))) (kv :: m)) <= fuel ->
    parse_members fuel
      (w1 ++ join (COMMA :: w1) (map (member_text ser sp) (kv :: m)) ++ w2 ++ 125%N :: rest)
    = Some (kv :: m, rest).
Proof.
  revert kv. induction m as [|kv' m IH]; intros [k v] Hall fuel Hfuel.
  - destruct fuel as [|n]; [simpl in Hfuel; lia|].
    simpl in Hfuel.
    rewrite parse_members_blank by assumption.
    cbn [map join].
    inversion Hall as [|? ? Hx _]; subst. cbn [snd] in Hx.
    rewrite parse_members_step by (apply Hx; lia).
    rewrite skip_ws_blank, skip_ws_solid by (assumption || reflexivity).
    reflexivity.
  - destruct fuel as [|n]; [simpl in Hfuel; lia|].
    simpl in Hfuel.
    rewrite parse_members_blank by assumption.
    cbn [map]. rewrite join_cons2, <- !app_assoc.
    inversion Hall as [|? ? Hx Hrest]; subst. cbn [snd] in Hx.
    rewrite parse_members_step by (apply Hx; lia).
    rewrite <- app_comm_cons, skip_ws_solid by reflexivity.
    change (unit_eqb COMMA COMMA) with true. cbv iota.
    specialize (IH kv' Hrest n).
    cbn [map] in IH. rewrite IH by (simpl; lia).
    reflexivity.
Qed.

End JsonMembers.

Section JsonRoundTrip.
Import Json.

Variable gap : jsstring.
Hypothesis Hgap : blank gap.

Lemma separator_blank : blank (if is_empty gap then [] else [SPACE]).
Proof.
  destruct (is_empty gap); [constructor|].
  apply blank_cons; [reflexivity|constructor].
Qed.

Lemma parse_value_string (n : nat) (s rest : jsstring) :
  parse_value (S n) (QuoteJSONString s ++ rest) = Some (JString s, rest).
Proof.
  replace (QuoteJSONString s ++ rest)
    with (DQUOTE :: quote_units s ++ DQUOTE :: rest)
    by (unfold QuoteJSONString; now flatten).
  cbn [parse_value].
  rewrite skip_ws_solid by reflexivity.
  change (unit_eqb DQUOTE DQUOTE) with true. cbv iota.
  now rewrite parse_quote_units.
Qed.

Lemma parse_value_array (n : nat) (body tl : jsstring) (d : code_unit) :
  skip_ws body = d :: tl -> d <> 93%N ->
  parse_value (S n) (91%N :: body)
  = match parse_elements n body with
    | Some (l, r) => Some (JArray l, r)
    | None => None
    end.
Proof.
  intros Hbody Hd. cbn [parse_value].
  rewrite skip_ws_solid by reflexivity.
  change (unit_eqb 91%N DQUOTE) with false.
  change (unit_eqb 91%N 91%N) with true. cbv iota.
  rewrite Hbody. apply unit_eqb_neq in Hd. now rewrite Hd.
Qed.

Lemma parse_value_object (n : nat) (body tl : jsstring) (d : code_unit) :
  skip_ws body = d :: tl -> d <> 125%N ->
  parse_value (S n) (123%N :: body)
  = match parse_members n body with
    | Some (m, r) => Some (JObject m, r)
    | None => None
    end.
Proof.
  intros Hbody Hd. cbn [parse_value].
  rewrite skip_ws_solid by reflexivity.
  change (unit_eqb 123%N DQUOTE) with false.
  change (unit_eqb 123%N 91%N) with false.
  change (unit_eqb 123%N 123%N) with true. cbv iota.
  rewrite Hbody. apply unit_eqb_neq in Hd. now rewrite Hd.
Qed.

(** Past the opening bracket and its white space comes the first part. *)
Lemma skip_ws_joined (w sep more p : jsstring) (c : code_unit) (tl : jsstring)
      (ps : list jsstring) :
  blank w -> is_ws c = false -> p = c :: tl ->
  exists tl', skip_ws (w ++ join sep (p :: ps) ++ more) = c :: tl'.
Proof.
  intros Hw Hc ->. rewrite skip_ws_blank by assumption.
  destruct (join_head sep c tl ps) as [tl' ->].
  rewrite <- app_comm_cons, skip_ws_solid by assumption.
  eexists; reflexivity.
Qed.

Lemma member_text_head (ser : json -> jsstring) (sp : jsstring)
      (kv : jsstring * json) :
  exists tl, member_text ser sp kv = DQUOTE :: tl.
Proof. unfold member_text, QuoteJSONString. eexists. reflexivity. Qed.

(** Every value is read back from its text, at any indentation, before
    any continuation, with a depth of descent of its size. *)
Theorem parse_value_serialize (v : json) :
  forall indent, blank indent ->
  forall rest fuel, size v <= fuel ->
    parse_value fuel (serialize gap indent v ++ rest) = Some (v, rest).
Proof.
  induction v as [| b | s | l IH | m IH] using json_nested_ind;
    intros indent Hind rest fuel Hfuel;
    (destruct fuel as [|n]; [simpl in Hfuel; lia|]).
  - reflexivity.
  - destruct b; reflexivity.
  - apply parse_value_string.
  - cbn [serialize].
    destruct l as [|x l]; [reflexivity|].
    set (ser := serialize gap (indent ++ gap)).
    cbn [map].
    destruct (bracketed_shape 91%N 93%N (ser x) (map ser l) Hgap Hind)
      as (w1 & w2 & Hw1 & Hw2 & ->).
    flatten.
    destruct (serialize_head gap (indent ++ gap) x)
      as (c & tl & Hc & Hs & H93 & _).
    destruct (@skip_ws_joined w1 (COMMA :: w1) (w2 ++ 93%N :: rest)
                (ser x) c tl (map ser l) Hw1 Hs Hc)
      as [tl' Hskip].
    rewrite (@parse_value_array n _ _ _ Hskip H93).
    change (ser x :: map ser l) with (map ser (x :: l)).
    rewrite parse_elements_join;
      try assumption; [reflexivity| |simpl in Hfuel |- *; lia].
    eapply Forall_impl; [|exact IH].
    intros y Hy rest' fuel' Hf. apply Hy; [|exact Hf].
    now apply blank_app.
  - cbn [serialize].
    destruct m as [|kv m]; [reflexivity|].
    set (ser := serialize gap (indent ++ gap)).
    set (sp := if is_empty gap then [] else [SPACE]).
    match goal with |- parse_value _ (bracketed _ _ _ _ ?parts ++ _) = _ =>
      change parts with (map (member_text ser sp) (kv :: m))
    end.
    cbn [map].
    destruct (bracketed_shape 123%N 125%N (member_text ser sp kv)
                (map (member_text ser sp) m) Hgap Hind)
      as (w1 & w2 & Hw1 & Hw2 & ->).
    flatten.
    destruct (member_text_head ser sp kv) as [tl Hc].
    destruct (@skip_ws_joined w1 (COMMA :: w1) (w2 ++ 125%N :: rest)
                (member_text ser sp kv) DQUOTE tl
                (map (member_text ser sp) m) Hw1 eq_refl Hc)
      as [tl' Hskip].
    rewrite (@parse_value_object n _ _ _ Hskip ltac:(discriminate)).
    change (member_text ser sp kv :: map (member_text ser sp) m)
      with (map (member_text ser sp) (kv :: m)).
    rewrite parse_members_join;
      try assumption;
      [reflexivity|apply separator_blank| |simpl in Hfuel |- *; lia].
    eapply Forall_impl; [|exact IH].
    intros y Hy rest' fuel' Hf. apply Hy; [|exact Hf].
    now apply blank_app.
Qed.

(** *** The text is long enough to pay for the descent *)

Lemma list_sum_le {A : Type} (f g : A -> nat) (l : list A) :
  Forall (fun x => f x <= g x) l ->
  list_sum (map f l) <= list_sum (map g l).
Proof. induction 1; simpl; lia. Qed.

Lemma join_length (sep : jsstring) (parts : list jsstring) :
  1 <= List.length sep ->
  list_sum (map (fun p => S (List.length p)) parts)
  <= S (List.length (join sep parts)).
Proof.
  intros Hsep. induction parts as [|p ps IH]; [simpl; lia|].
  destruct ps as [|q ps]; [simpl; lia|].
  rewrite join_cons2, !length_app.
  change (list_sum (map (fun p => S (List.length p)) (p :: q :: ps)))
    with (S (List.length p)
          + list_sum (map (fun p => S (List.length p)) (q :: ps))).
  lia.
Qed.

Lemma bracketed_length (o c : code_unit) (stepback : jsstring)
      (parts : list jsstring) :
  S (list_sum (map (fun p => S (List.length p)) parts))
  <= List.length (bracketed o c gap stepback parts).
Proof.
  unfold bracketed. destruct parts as [|p ps]; [simpl; lia|].
  destruct (is_empty gap).
  - pose proof (@join_length [COMMA] (p :: ps) ltac:(simpl; lia)).
    rewrite !length_app.
    change (List.length [o]) with 1. change (List.length [c]) with 1. lia.
  - pose proof (@join_length ([COMMA; LF] ++ stepback ++ gap) (p :: ps)
                  ltac:(simpl; lia)).
    cbv zeta. rewrite !length_app.
    change (List.length [o; LF]) with 2. change (List.length [c]) with 1.
    lia.
Qed.

Lemma size_le_length (v : json) :
  forall indent, size v <= List.length (serialize gap indent v).
Proof.
  induction v as [| b | s | l IH | m IH] using json_nested_ind; intros indent.
  - simpl; lia.
  - destruct b; simpl; lia.
  - cbn [serialize size]. unfold QuoteJSONString. simpl. lia.
  - cbn [serialize size].
    etransitivity; [|apply bracketed_length].
    apply le_n_S. rewrite map_map. apply list_sum_le.
    eapply Forall_impl; [|exact IH].
    intros y Hy. cbv beta. apply le_n_S, Hy.
  - cbn [serialize size].
    etransitivity; [|apply bracketed_length].
    apply le_n_S. rewrite map_map. apply list_sum_le.
    eapply Forall_impl; [|exact IH].
    intros [k y] Hy. cbv beta. cbn [fst snd] in *.
    apply le_n_S. rewrite !length_app.
    specialize (Hy (indent ++ gap)). lia.
Qed.

(** [JSON.parse] undoes serialization with a gap of white space. *)
Theorem parse_serialize (v : json) : parse (serialize gap [] v) = Some v.
Proof.
  unfold parse.
  pose proof (size_le_length v []) as Hsize.
  rewrite <- (app_nil_r (serialize gap [] v)) at 2.
  rewrite parse_value_serialize; [reflexivity|apply Forall_nil|lia].
Qed.

End JsonRoundTrip.

(** [JSON.stringify] with and without indentation is undone by
    [JSON.parse]. *)
Lemma parse_stringify (v : Json.json) : Json.parse (Json.stringify v) = Some v.
Proof. apply parse_serialize. apply Forall_nil. Qed.


(** ** The text a blob keeps *)

Section ScalarText.
Import Json.


















End ScalarText.

(** ** The data: URL and its payload *)

Section Payload.
Import DataURL.










End Payload.

(** ** Rendering *)

Section Rendering.

Lemma rendered_length (cs : list card) (index : nat) :
  List.length (rendered cs index) = List.length cs.
Proof.
  revert index. induction cs as [|c cs IH]; intros index; simpl;
    [reflexivity | now rewrite IH].
Qed.

Lemma rendered_nth (cs : list card) :
  forall index i c,
    nth_error cs i = Some c ->
    nth_error (rendered cs index) i
    = Some (createFlashcardElement c (index + i + 1)).
Proof.
  induction cs as [|c0 cs IH]; intros index i c Hi.
  - destruct i; discriminate.
  - destruct i as [|i]; simpl in Hi |- *.
    + injection Hi as ->. now rewrite Nat.add_0_r.
    + rewrite (IH (S index) i c Hi). do 2 f_equal. lia.
Qed.

(** The texts the template reads off a question/answer pair are its
    question and its answer. *)
Lemma card_texts_pair (v : Json.json) (c : card) :
  read_card v = Some c -> card_texts v = Some c.
Proof.
  destruct v as [| | | |m]; try discriminate. cbn [read_card card_texts property].
  destruct (lookup (lit "question") m) as [[| |q| |]|]; try discriminate.
  destruct (lookup (lit "answer") m) as [[| |a| |]|]; try discriminate.
  now intros [= <-].
Qed.

Lemma forEach_card (v : Json.json) (c : card) (l : list Json.json)
      (index : nat) (p : page) :
  card_texts v = Some c ->
  forEach append_card (v :: l) index p
  = forEach append_card l (S index)
      (appendChild flashcardsContainer (createFlashcardElement c (index + 1)) p).
Proof. intros H. cbn [forEach]. unfold append_card. now rewrite H. Qed.

Lemma forEach_null (v : Json.json) (l : list Json.json) (index : nat) (p : page) :
  card_texts v = None -> forEach append_card (v :: l) index p = (p, false).
Proof. intros H. cbn [forEach]. unfold append_card. now rewrite H. Qed.

(** The loop of [showResults] touches nothing but the container,
    however far it gets. *)
Lemma forEach_frame (l : list Json.json) :
  forall index p,
    let p' := fst (forEach append_card l index p) in
    (forall j, j <> flashcardsContainer -> document p' j = document p j)
    /\ sessionStorage p' = sessionStorage p
    /\ currentFlashcards p' = currentFlashcards p.
Proof.
  induction l as [|v l IH]; intros index p.
  - repeat split.
  - destruct (card_texts v) as [c|] eqn:Hv;
      [rewrite (@forEach_card v c l index p Hv)
      |rewrite (@forEach_null v l index p Hv); repeat split].
    destruct (IH (S index) (appendChild flashcardsContainer
                              (createFlashcardElement c (index + 1)) p))
      as (Hj & Hs & Hf).
    cbv zeta in *. repeat split.
    + intros j Hne. rewrite (Hj j Hne). cbn.
      destruct (element_id_eq_dec j flashcardsContainer); [contradiction|reflexivity].
    + exact Hs.
    + exact Hf.
Qed.

Lemma read_cards_texts (l : list Json.json) :
  forall cs, read_cards l = Some cs -> all_texts l = Some cs.
Proof.
  induction l as [|v l IH]; intros cs; cbn [read_cards all_texts];
    [trivial|].
  destruct (read_card v) as [c|] eqn:Hv; [|discriminate].
  destruct (read_cards l) as [cs'|]; [|discriminate].
  intros [= <-]. now rewrite (card_texts_pair v Hv), (IH cs').
Qed.

Lemma all_texts_length (l : list Json.json) :
  forall cs, all_texts l = Some cs -> List.length cs = List.length l.
Proof.
  induction l as [|v l IH]; intros cs; cbn [all_texts].
  - now intros [= <-].
  - destruct (card_texts v) as [c|]; [|discriminate].
    destruct (all_texts l) as [cs'|]; [|discriminate].
    intros [= <-]. simpl. now rewrite (IH cs').
Qed.

(** On a list with no null in it the loop runs to its end and appends
    the elements of its cards. *)
Lemma forEach_append (l : list Json.json) :
  forall cs index p,
    all_texts l = Some cs ->
    snd (forEach append_card l index p) = true
    /\ children (document (fst (forEach append_card l index p)) flashcardsContainer)
       = children (document p flashcardsContainer) ++ rendered cs index.
Proof.
  induction l as [|v l IH]; intros cs index p; cbn [all_texts].
  - intros [= <-]. cbn. now rewrite app_nil_r.
  - destruct (card_texts v) as [c|] eqn:Hv; [|discriminate].
    destruct (all_texts l) as [cs'|]; [|discriminate].
    intros [= <-].
    rewrite (@forEach_card v c l index p Hv).
    destruct (IH cs' (S index)
                (appendChild flashcardsContainer
                   (createFlashcardElement c (index + 1)) p) eq_refl)
      as (Hend & Hc).
    split; [exact Hend|]. rewrite Hc. cbn. now rewrite <- app_assoc.
Qed.

(** The three panels as [showResults] sets them before anything else. *)
Lemma showResults_elsewhere (v : option Json.json) (p : page) (j : element_id) :
  j <> flashcardsContainer -> j <> resultsCount ->
  document (fst (showResults v p)) j
  = document
      (p |> classList_add_hidden loading
         |> classList_remove_hidden results
         |> classList_add_hidden error) j.
Proof.
  intros Hj Hc. unfold showResults.
  destruct (length_text v) as [count|]; [|reflexivity].
  assert (Hrest : forall q : page,
             document (q |> set_textContent resultsCount
                              (CHECK_MARK ++ lit " Generated " ++ count
                                 ++ lit " flashcards!")
                         |> clear_innerHTML flashcardsContainer) j
             = document q j).
  { intros q. cbn.
    destruct (element_id_eq_dec j flashcardsContainer); [contradiction|].
    destruct (element_id_eq_dec j resultsCount); [contradiction|reflexivity]. }
  destruct v as [[| | |l|]|]; cbn [fst]; try apply Hrest.
  match goal with |- context [forEach append_card l 0 ?q] =>
    destruct (forEach_frame l 0 q) as (He & _)
  end.
  cbv zeta in He. rewrite (He j Hj). apply Hrest.
Qed.

Lemma showResults_variables (v : option Json.json) (p : page) :
  sessionStorage (fst (showResults v p)) = sessionStorage p
  /\ currentFlashcards (fst (showResults v p)) = currentFlashcards p.
Proof.
  unfold showResults.
  destruct (length_text v) as [count|]; [|split; reflexivity].
  destruct v as [[| | |l|]|]; cbn [fst]; try (split; reflexivity).
  match goal with |- context [forEach append_card l 0 ?q] =>
    destruct (forEach_frame l 0 q) as (_ & Hs & Hf)
  end.
  cbv zeta in Hs, Hf. rewrite Hs, Hf. split; reflexivity.
Qed.

(** On a list with no null in it [showResults] runs to its end, leaves
    the elements of its cards in the container and cites their number. *)
Lemma showResults_list (l : list Json.json) (cs : list card) (p : page) :
  all_texts l = Some cs ->
  snd (showResults (Some (Json.JArray l)) p) = true
  /\ children (document (fst (showResults (Some (Json.JArray l)) p))
                 flashcardsContainer)
     = rendered cs 0
  /\ textContent (document (fst (showResults (Some (Json.JArray l)) p))
                    resultsCount)
     = CHECK_MARK ++ lit " Generated "
         ++ Number_toString (List.length cs) ++ lit " flashcards!".
Proof.
  intros Hl. unfold showResults. cbn [length_text].
  match goal with |- context [forEach append_card l 0 ?q] =>
    destruct (forEach_append l 0 q Hl) as (Hend & Hc);
    destruct (forEach_frame l 0 q) as (He & _)
  end.
  cbv zeta in He. split; [exact Hend|]. split.
  - rewrite Hc. reflexivity.
  - rewrite (He resultsCount) by discriminate.
    rewrite (all_texts_length l Hl). reflexivity.
Qed.

(** Whether the rendering runs to its end depends on the value alone. *)
Lemma forEach_flag (l : list Json.json) :
  forall index index' p q,
    snd (forEach append_card l index p) = snd (forEach append_card l index' q).
Proof.
  induction l as [|v l IH]; intros index index' p q; [reflexivity|].
  destruct (card_texts v) as [c|] eqn:Hv.
  - rewrite (@forEach_card v c l index p Hv), (@forEach_card v c l index' q Hv).
    apply IH.
  - now rewrite (@forEach_null v l index p Hv), (@forEach_null v l index' q Hv).
Qed.

Lemma showResults_flag (v : option Json.json) (p : page) :
  snd (showResults v p) = renders v.
Proof.
  unfold renders, showResults.
  destruct (length_text v) as [count|]; [|reflexivity].
  destruct v as [[| | |l|]|]; try reflexivity. apply forEach_flag.
Qed.

(** What the success branch leaves, whether the rendering threw or not. *)
Lemma success_branch (file : File) (g : generation) (media : jsstring)
      (data : Generate.response) (p : page) :
  reader g = onload media -> reply g = Resolved data ->
  Generate.success data = true ->
  let v := Generate.flashcards data in
  let q := fst (showResults v (set_currentFlashcards v p)) in
  generate_settled file g p
  = (if renders v then q
     else showError (failure_text (ErrorObject (type_error g))) q,
     [generate_request file (readAsDataURL file media)]).
Proof.
  intros Hread Hreply Hok. cbv zeta. unfold generate_settled.
  rewrite Hread. cbn [fileToBase64]. rewrite Hreply, Hok.
  rewrite <- (showResults_flag (Generate.flashcards data)
                (set_currentFlashcards (Generate.flashcards data) p)).
  destruct (showResults (Generate.flashcards data)
              (set_currentFlashcards (Generate.flashcards data) p))
    as [q [|]]; reflexivity.
Qed.

End Rendering.

(** ** The nodes of a flashcard's markup *)

Section Faces.

(** Character data becomes text nodes of the innermost open element. *)
Lemma feed_character_data (s : jsstring) :
  forallb character_data s = true ->
  forall e stack,
    fold_left Dom.feed s (Dom.Data, e :: stack)
    = (Dom.Data,
       {| Dom.tag := Dom.tag e; Dom.attrs := Dom.attrs e;
          Dom.kids := Dom.kids e ++ Dom.text s |} :: stack).
Proof.
  induction s as [|c s IH]; intros Hs e stack.
  - cbn. rewrite app_nil_r. now destruct e.
  - cbn [forallb] in Hs. apply andb_true_iff in Hs. destruct Hs as [Hc Hs].
    unfold character_data in Hc. apply andb_true_iff in Hc.
    destruct Hc as [H1 H2]. apply negb_true_iff in H1, H2.
    cbn [fold_left Dom.feed]. rewrite H1, H2. cbn [Dom.add].
    rewrite (IH Hs). cbn [Dom.tag Dom.attrs Dom.kids Dom.text map].
    now rewrite <- app_assoc.
Qed.

(** What [escapeHtml] writes for one unit is read as that unit, or as a
    line break when the unit is a newline. *)
Lemma feed_escaped_unit (c : code_unit) (e : Dom.open_element)
      (stack : list Dom.open_element) :
  fold_left Dom.feed (replace_newlines (lit "<br>") (Html.escape_unit c))
            (Dom.Data, e :: stack)
  = (Dom.Data,
     {| Dom.tag := Dom.tag e; Dom.attrs := Dom.attrs e;
        Dom.kids := Dom.kids e ++ Dom.broken_text [c] |} :: stack).
Proof.
  unfold Html.escape_unit, Dom.broken_text. cbn [map].
  unit_cases c AMP; [reflexivity|].
  unit_cases c NBSP; [reflexivity|].
  unit_cases c LT; [reflexivity|].
  unit_cases c GT; [reflexivity|].
  unfold replace_newlines. cbn [flat_map app].
  unit_cases c LF; [reflexivity|].
  repeat match goal with
    | H : c <> ?k |- _ => apply (proj2 (unit_eqb_neq c k)) in H
    end.
  cbn [app fold_left Dom.feed].
  repeat match goal with
    | H : unit_eqb c _ = false |- _ => rewrite ?H; clear H
    end.
  reflexivity.
Qed.

Lemma feed_escapeHtml (t : jsstring) :
  forall e stack,
    fold_left Dom.feed (escapeHtml t) (Dom.Data, e :: stack)
    = (Dom.Data,
       {| Dom.tag := Dom.tag e; Dom.attrs := Dom.attrs e;
          Dom.kids := Dom.kids e ++ Dom.broken_text t |} :: stack).
Proof.
  induction t as [|c t IH]; intros e stack.
  - cbn. rewrite app_nil_r. now destruct e.
  - rewrite escapeHtml_cons, fold_left_app, feed_escaped_unit, IH.
    cbn [Dom.tag Dom.attrs Dom.kids]. rewrite <- app_assoc. reflexivity.
Qed.

Lemma digits_are_character_data (d : Decimal.uint) :
  forallb character_data (lit (NilEmpty.string_of_uint d)) = true.
Proof. induction d; [reflexivity|exact IHd..]. Qed.

Lemma Number_toString_character_data (n : nat) :
  forallb character_data (Number_toString n) = true.
Proof.
  unfold Number_toString, NilZero.string_of_uint.
  destruct (Nat.to_uint n) eqn:E; try reflexivity;
    rewrite <- E; apply digits_are_character_data.
Qed.

(** The markup of a card, read as nodes: the face of class
    flashcard-front has the label Q and the number, and the question as its
    text; the face of class flashcard-back the label A and the number, and
    the answer. *)
Lemma flashcard_faces (c : card) (number : nat) :
  Dom.faces (innerHTML (createFlashcardElement c number))
  = Some ({| Dom.face_class := Some (lit "flashcard-front");
             Dom.label := Dom.text (lit "Q" ++ Number_toString number);
             Dom.body := Dom.broken_text (question c) |},
          {| Dom.face_class := Some (lit "flashcard-back");
             Dom.label := Dom.text (lit "A" ++ Number_toString number);
             Dom.body := Dom.broken_text (answer c) |}).
Proof.
  pose proof (feed_character_data _ (Number_toString_character_data number))
    as Hn.
  pose proof (feed_escapeHtml (question c)) as Hq.
  pose proof (feed_escapeHtml (answer c)) as Ha.
  unfold Dom.faces, Dom.parse. cbn [innerHTML createFlashcardElement].
  unfold flashcard_markup, face, line, number_div, text_div, attr.
  revert Hn Hq Ha.
  generalize (Number_toString number) (escapeHtml (question c))
             (escapeHtml (answer c)).
  intros N Q A Hn Hq Ha.
  flatten. repeat progress (cbn [fold_left]; rewrite ?fold_left_app).
  repeat first
    [ rewrite Hn | rewrite Hq | rewrite Ha
    | match goal with
      | |- context [fold_left Dom.feed ?piece (?st, ?stack)] =>
          let r := eval cbn in (fold_left Dom.feed piece (st, stack)) in
          progress change (fold_left Dom.feed piece (st, stack)) with r
      | |- context [Dom.feed (?st, ?stack) ?c] =>
          let r := eval cbn in (Dom.feed (st, stack) c) in
          progress change (Dom.feed (st, stack) c) with r
      end ].
  reflexivity.
Qed.

End Faces.

(** ** Runs: the stored collection and the rendered one *)

Section Runs.





Lemma downloadBtn_click_page (p : page) : fst (downloadBtn_click p) = p.
Proof.
  unfold downloadBtn_click.
  destruct (currentFlashcards p) as [[| | |l|]|]; try reflexivity;
    match goal with |- context [length_is_zero ?v] =>
      destruct (length_is_zero v); reflexivity
    end.
Qed.





(** What a settled generation leaves alone, and how it leaves the three
    panels, on every path. *)
Lemma settle_frame (file : File) (g : generation) (p : page) (j : element_id) :
  j <> loading -> j <> results -> j <> error ->
  j <> flashcardsContainer -> j <> resultsCount ->
  document (fst (generate_settled file g p)) j = document p j.
Proof.
  intros H1 H2 H3 H4 H5.
  assert (Herr : forall msg q, document (showError msg q) j = document q j).
  { intros msg q. cbn.
    destruct (element_id_eq_dec j error); [contradiction|].
    destruct (element_id_eq_dec j results); [contradiction|].
    destruct (element_id_eq_dec j loading); [contradiction|reflexivity]. }
  assert (Hres : forall v q, document (fst (showResults v q)) j = document q j).
  { intros v q. rewrite showResults_elsewhere by assumption. cbn.
    destruct (element_id_eq_dec j error); [contradiction|].
    destruct (element_id_eq_dec j results); [contradiction|].
    destruct (element_id_eq_dec j loading); [contradiction|reflexivity]. }
  destruct (reader g) as [media|] eqn:Hr;
    [|unfold generate_settled; rewrite Hr; apply Herr].
  destruct (reply g) as [data|e] eqn:Hd;
    [|unfold generate_settled; rewrite Hr; cbn [fileToBase64]; rewrite Hd;
      apply Herr].
  destruct (Generate.success data) eqn:Hok;
    [|unfold generate_settled; rewrite Hr; cbn [fileToBase64]; rewrite Hd, Hok;
      apply Herr].
  rewrite (success_branch file g p Hr Hd Hok). cbv zeta. cbn [fst].
  destruct (renders (Generate.flashcards data));
    [|rewrite Herr]; now rewrite Hres.
Qed.

Lemma settle_session (file : File) (g : generation) (p : page) :
  sessionStorage (fst (generate_settled file g p)) = sessionStorage p.
Proof.
  destruct (reader g) as [media|] eqn:Hr;
    [|unfold generate_settled; rewrite Hr; reflexivity].
  destruct (reply g) as [data|e] eqn:Hd;
    [|unfold generate_settled; rewrite Hr; cbn [fileToBase64]; rewrite Hd;
      reflexivity].
  destruct (Generate.success data) eqn:Hok;
    [|unfold generate_settled; rewrite Hr; cbn [fileToBase64]; rewrite Hd, Hok;
      reflexivity].
  rewrite (success_branch file g p Hr Hd Hok). cbv zeta. cbn [fst].
  destruct (showResults_variables (Generate.flashcards data)
              (set_currentFlashcards (Generate.flashcards data) p)) as (Hs & _).
  destruct (renders (Generate.flashcards data)); exact Hs.
Qed.

Lemma settle_panels (file : File) (g : generation) (p : page) :
  (hidden (document (fst (generate_settled file g p)) loading),
   hidden (document (fst (generate_settled file g p)) results),
   hidden (document (fst (generate_settled file g p)) error))
  = (true, false, true)
  \/ (hidden (document (fst (generate_settled file g p)) loading),
      hidden (document (fst (generate_settled file g p)) results),
      hidden (document (fst (generate_settled file g p)) error))
     = (true, true, false).
Proof.
  destruct (reader g) as [media|] eqn:Hr;
    [|unfold generate_settled; rewrite Hr; right; reflexivity].
  destruct (reply g) as [data|e] eqn:Hd;
    [|unfold generate_settled; rewrite Hr; cbn [fileToBase64]; rewrite Hd;
      right; reflexivity].
  destruct (Generate.success data) eqn:Hok;
    [|unfold generate_settled; rewrite Hr; cbn [fileToBase64]; rewrite Hd, Hok;
      right; reflexivity].
  rewrite (success_branch file g p Hr Hd Hok). cbv zeta. cbn [fst].
  destruct (renders (Generate.flashcards data)).
  - left. now rewrite !showResults_elsewhere by discriminate.
  - right. reflexivity.
Qed.

Lemma settle_effects (file : File) (g : generation) (p : page) :
  snd (generate_settled file g p)
  = match reader g with
    | onload media => [generate_request file (readAsDataURL file media)]
    | onerror => []
    end.
Proof.
  destruct (reader g) as [media|] eqn:Hr;
    [|unfold generate_settled; rewrite Hr; reflexivity].
  destruct (reply g) as [data|e] eqn:Hd;
    [|unfold generate_settled; rewrite Hr; cbn [fileToBase64]; rewrite Hd;
      reflexivity].
  destruct (Generate.success data) eqn:Hok;
    [|unfold generate_settled; rewrite Hr; cbn [fileToBase64]; rewrite Hd, Hok;
      reflexivity].
  now rewrite (success_branch file g p Hr Hd Hok).
Qed.


End Runs.

(* ================================================================== *)
(** * The claims *)

(** C1.  A generation response accepted as successful, carrying a list of
    N question/answer pairs, leaves exactly N flashcard elements in the
    container, in list order; the element at position i (from 1), read as
    the nodes its markup parses to, has a front face with the label Q<i>
    and the pair's question as its text and a back face with the label
    A<i> and the pair's answer as its text, every unit of either text
    character data and every newline a line break; the count summary cites
    N; nothing depends on what the container held before (the page [p] is
    arbitrary), so earlier contents are replaced. *)
Theorem render_successful_response
        (file : File) (g : generation) (media : jsstring)
        (data : Generate.response) (objects : list Json.json)
        (cards : list card) (p : page) :
  reader g = onload media ->
  reply g = Resolved data ->
  Generate.success data = true ->
  Generate.flashcards data = Some (Json.JArray objects) ->
  read_cards objects = Some cards ->
  let p' := fst (generate_settled file g p) in
  let elements := children (document p' flashcardsContainer) in
  List.length elements = List.length cards
  /\ (forall i c,
         nth_error cards i = Some c ->
         nth_error elements i
         = Some {| className := lit "flashcard";
                   innerHTML :=
                     flashcard_markup
                       (lit "Q" ++ Number_toString (i + 1)) (escapeHtml (question c))
                       (lit "A" ++ Number_toString (i + 1)) (escapeHtml (answer c)) |})
  /\ (forall i c,
         nth_error cards i = Some c ->
         exists element,
           nth_error elements i = Some element
           /\ className element = lit "flashcard"
           /\ Dom.faces (innerHTML element)
              = Some ({| Dom.face_class := Some (lit "flashcard-front");
                         Dom.label :=
                           Dom.text (lit "Q" ++ Number_toString (i + 1));
                         Dom.body := Dom.broken_text (question c) |},
                      {| Dom.face_class := Some (lit "flashcard-back");
                         Dom.label :=
                           Dom.text (lit "A" ++ Number_toString (i + 1));
                         Dom.body := Dom.broken_text (answer c) |}))
  /\ textContent (document p' resultsCount)
     = CHECK_MARK ++ lit " Generated "
         ++ Number_toString (List.length cards) ++ lit " flashcards!"
  /\ hidden (document p' results) = false
  /\ hidden (document p' loading) = true
  /\ hidden (document p' error) = true.
Proof.
  intros Hread Hreply Hok Hlist Hcards p' elements.
  subst p' elements.
  rewrite (success_branch file g p Hread Hreply Hok). cbv zeta. cbn [fst].
  rewrite Hlist.
  rewrite <- showResults_flag
    with (p := set_currentFlashcards (Some (Json.JArray objects)) p).
  destruct (showResults_list objects
              (set_currentFlashcards (Some (Json.JArray objects)) p)
              (read_cards_texts objects Hcards))
    as (-> & Hc & Ht).
  rewrite Hc, Ht, !showResults_elsewhere by discriminate.
  split; [apply rendered_length|].
  split; [|split; [|repeat split]].
  - intros i c Hi. rewrite (rendered_nth cards 0 i Hi). reflexivity.
  - intros i c Hi. exists (createFlashcardElement c (i + 1)).
    split; [exact (rendered_nth cards 0 i Hi)|].
    split; [reflexivity|apply flashcard_faces].
Qed.

Lemma render_successful_response_witness :
  let p' := fst (generate_settled sample_file sample_generation blank_page) in
  exists element,
    nth_error (children (document p' flashcardsContainer)) 0 = Some element
    /\ className element = lit "flashcard"
    /\ Dom.faces (innerHTML element)
       = Some ({| Dom.face_class := Some (lit "flashcard-front");
                  Dom.label := Dom.text (lit "Q1");
                  Dom.body := Dom.text (lit "2+2?") |},
               {| Dom.face_class := Some (lit "flashcard-back");
                  Dom.label := Dom.text (lit "A1");
                  Dom.body := Dom.text (lit "4") |}).
Proof.
  exact (proj1 (proj2 (proj2
           (@render_successful_response sample_file sample_generation _
              sample_success [sample_object] [sample_card] blank_page
              eq_refl eq_refl eq_refl eq_refl eq_refl)))
           0 sample_card eq_refl).
Defined.




(** C3.  Read back as element content, an escaped text is exactly the
    original text as character data, with a line break in place of every
    newline: no unit of the text opens markup, the only tags are the line
    breaks, and no newline is left.  This holds in front of any following
    content. *)
Theorem escapeHtml_neutralizes (text rest : jsstring) :
  Html.tokenize 0 (escapeHtml text ++ rest)
  = Html.shown text ++ Html.tokenize 0 rest
  /\ Html.tokenize 0 (escapeHtml text) = Html.shown text
  /\ ~ In Html.Markup (Html.tokenize 0 (escapeHtml text))
  /\ ~ In LF (escapeHtml text).
Proof.
  assert (H : Html.tokenize 0 (escapeHtml text) = Html.shown text).
  { rewrite <- (app_nil_r (escapeHtml text)), tokenize_escapeHtml_app.
    apply app_nil_r. }
  split; [apply tokenize_escapeHtml_app|].
  split; [exact H|].
  split; [rewrite H; apply shown_no_markup|apply escapeHtml_no_newline].
Qed.

(** C4.  When the verification response says both success and
    authenticated, the session flag is set to 'true', the overlay and the
    error indicator are hidden and the field is cleared; on any other
    well-formed response the overlay and the session flag are left as they
    were, the error indicator is shown, the field is cleared and focus is
    put back on it.  Either way the request carried the entered text. *)
Theorem checkPassword_response (data : Verify.response) (p : page) :
  let p' := fst (checkPassword (Resolved data) p) in
  let effects := snd (checkPassword (Resolved data) p) in
  if Verify.success data && Verify.authenticated data then
    sessionStorage p' = Some (lit "true")
    /\ hidden (document p' passwordOverlay) = true
    /\ hidden (document p' passwordError) = true
    /\ value (document p' passwordInput) = []
    /\ effects = [verify_request (value (document p passwordInput))]
  else
    hidden (document p' passwordOverlay) = hidden (document p passwordOverlay)
    /\ sessionStorage p' = sessionStorage p
    /\ hidden (document p' passwordError) = false
    /\ value (document p' passwordInput) = []
    /\ effects = [verify_request (value (document p passwordInput));
                  Focus passwordInput].
Proof.
  unfold checkPassword, checkPassword_settled.
  destruct (Verify.success data && Verify.authenticated data);
    cbn; repeat split.
Qed.




(** C6.  After a well-formed negative response the error element shows
    the server's error text when there is one (a non-empty text), and the
    generic message when the server gives none (the field is absent or
    empty); after a request or a reading of the response that threw an
    error it shows the fixed prefix followed by that error's message; after
    a failed read of the file it shows the fixed prefix followed by the
    word undefined, because line 135 rejects with the reader's event, which
    has no message.  In each case the error element is visible and the
    loading and results elements are hidden. *)
Theorem generate_failure_message (file : File) (g : generation) (p : page) :
  let p' := fst (generate_settled file g p) in
  let shown := textContent (document p' error) in
  (forall data text,
      refused_with g data -> Generate.error data = Some text -> text <> [] ->
      shown = CROSS_MARK ++ lit " " ++ text)
  /\ (forall data,
         refused_with g data ->
         Generate.error data = None \/ Generate.error data = Some [] ->
         shown = CROSS_MARK ++ lit " Failed to generate flashcards")
  /\ (forall media description,
         reader g = onload media ->
         reply g = Rejected (ErrorObject description) ->
         shown = CROSS_MARK ++ lit " Failed to generate flashcards: "
                   ++ description)
  /\ (reader g = onerror ->
      shown = CROSS_MARK ++ lit " Failed to generate flashcards: undefined")
  /\ ((exists data, refused_with g data) \/ (exists e, failed_with g e) ->
      hidden (document p' error) = false
      /\ hidden (document p' loading) = true
      /\ hidden (document p' results) = true).
Proof.
  cbv zeta. unfold generate_settled, refused_with, failed_with.
  split; [|split; [|split; [|split]]].
  - intros data text ((media & ->) & -> & ->) Herr Hne. cbn.
    rewrite Herr. destruct text; [contradiction|reflexivity].
  - intros data ((media & ->) & -> & ->) [Herr|Herr]; cbn; now rewrite Herr.
  - intros media description -> ->. reflexivity.
  - intros ->. reflexivity.
  - intros [(data & (media & ->) & -> & ->)|(e & [(-> & ->)|(media & -> & ->)])];
      repeat split.
Qed.

(** The failed read, on a page with a file selected. *)
Lemma generate_failure_message_witness :
  textContent
    (document (fst (generateBtn_click unreadable page_with_file)) error)
  = CROSS_MARK ++ lit " Failed to generate flashcards: undefined".
Proof.
  exact (proj1 (proj2 (proj2 (proj2
           (generate_failure_message sample_file unreadable
              (showLoading page_with_file)))))
           eq_refl).
Defined.

(** C7.  After a selection with at least one file the generate button is
    enabled and its label is the prompt followed by the first file's name;
    after an empty selection it is disabled and has the default label. *)
Theorem fileInput_change_label (selection : list File) (p : page) :
  let p' := select_files selection p in
  match selection with
  | file :: _ =>
      disabled (document p' generateBtn) = false
      /\ textContent (document p' generateBtn)
         = BRAIN ++ lit " Generate from " ++ name file
  | [] =>
      disabled (document p' generateBtn) = true
      /\ textContent (document p' generateBtn)
         = BRAIN ++ lit " Generate Flashcards"
  end.
Proof.
  unfold select_files, fileInput_change.
  destruct selection as [|file rest]; cbn; split; reflexivity.
Qed.

(** C8.  When the verification request throws, the error indicator gets
    the text of the transport failure and is shown, the field is cleared,
    and the session flag and the overlay are left as they were. *)
Theorem checkPassword_transport_failure (e : thrown) (p : page) :
  let p' := fst (checkPassword (Rejected e) p) in
  textContent (document p' passwordError)
  = CROSS_MARK ++ lit " Error verifying password"
  /\ hidden (document p' passwordError) = false
  /\ value (document p' passwordInput) = []
  /\ sessionStorage p' = sessionStorage p
  /\ hidden (document p' passwordOverlay) = hidden (document p passwordOverlay).
Proof. cbn. repeat split. Qed.

(** After a transport failure the indicator keeps that failure's text: a
    password rejected later shows the indicator with it. *)
Remark rejection_after_transport_failure
       (e : thrown) (data : Verify.response) (p : page) :
  Verify.success data && Verify.authenticated data = false ->
  let p1 := fst (checkPassword (Rejected e) p) in
  let p2 := fst (checkPassword (Resolved data) p1) in
  hidden (document p2 passwordError) = false
  /\ textContent (document p2 passwordError)
     = CROSS_MARK ++ lit " Error verifying password".
Proof.
  intros Hno. cbv zeta.
  unfold checkPassword, checkPassword_settled. rewrite Hno.
  split; reflexivity.
Qed.

(** C9.  A generation that does not reach the success branch (the
    encoding, the request or the reading of the response throws, or the
    response's success field is false) leaves the stored collection as it
    was, for the rest of the handler and for a whole click alike, so that
    an export afterwards produces what it would have produced before. *)
Theorem failed_generation_keeps_collection
        (file : File) (g : generation) (p : page) :
  (exists data, refused_with g data) \/ (exists e, failed_with g e) ->
  let p' := fst (generate_settled file g p) in
  currentFlashcards p' = currentFlashcards p
  /\ snd (downloadBtn_click p') = snd (downloadBtn_click p)
  /\ currentFlashcards (fst (generateBtn_click g p)) = currentFlashcards p.
Proof.
  intros H. cbv zeta.
  assert (Hsettled : forall q,
             currentFlashcards (fst (generate_settled file g q))
             = currentFlashcards q).
  { intros q. unfold generate_settled, refused_with, failed_with in *.
    destruct H as [(data & (media & ->) & -> & ->)|(e & [(-> & ->)|(media & -> & ->)])];
      reflexivity. }
  split; [apply Hsettled|]. split.
  - unfold downloadBtn_click. rewrite Hsettled.
    destruct (currentFlashcards p) as [[| | |l|]|]; try reflexivity;
      match goal with |- context [length_is_zero ?v] =>
        destruct (length_is_zero v); reflexivity
      end.
  - unfold generateBtn_click, generate_started.
    destruct (files (document p fileInput)) as [|f fs]; [reflexivity|].
    unfold generate_settled, refused_with, failed_with in *.
    destruct H as [(data & (media & ->) & -> & ->)|(e & [(-> & ->)|(media & -> & ->)])];
      reflexivity.
Qed.

Lemma failed_generation_keeps_collection_witness :
  currentFlashcards
    (fst (generate_settled sample_file sample_refused
            (set_currentFlashcards (Some (Json.JArray [sample_object]))
               blank_page)))
  = Some (Json.JArray [sample_object]).
Proof.
  refine (proj1 (@failed_generation_keeps_collection sample_file sample_refused
                   (set_currentFlashcards (Some (Json.JArray [sample_object]))
                      blank_page) _)).
  left. exists sample_refusal.
  split; [eexists; reflexivity|split; reflexivity].
Defined.

(** C10.  A click on the generate button while no file is selected
    returns at once: the page is the same page (loading, results and error
    visibility and the stored collection included) and no request goes
    out. *)
Theorem generate_without_file (g : generation) (p : page) :
  files (document p fileInput) = [] ->
  generateBtn_click g p = (p, []).
Proof.
  intros Hfiles. unfold generateBtn_click, generate_started.
  now rewrite Hfiles.
Qed.

Lemma generate_without_file_witness :
  generateBtn_click sample_generation blank_page = (blank_page, []).
Proof. apply generate_without_file. reflexivity. Defined.

(* ================================================================== *)
(** * Further properties of the script *)

(** ** The access gate over runs *)

Lemma str_eqb_eq (a b : jsstring) : str_eqb a b = true <-> a = b.
Proof.
  split; [|intros ->; apply str_eqb_refl].
  revert b. induction a as [|x a IH]; intros [|y b] H; try discriminate H.
  - reflexivity.
  - cbn [str_eqb] in H. apply andb_true_iff in H. destruct H as [Hx Ha].
    apply unit_eqb_eq in Hx. subst. f_equal. now apply IH.
Qed.

Lemma is_authenticated_true (p : page) :
  is_authenticated p = true <-> sessionStorage p = Some (lit "true").
Proof.
  unfold is_authenticated. destruct (sessionStorage p) as [v|].
  - rewrite str_eqb_eq. split; [now intros ->|now intros [= ->]].
  - split; discriminate.
Qed.

Lemma DOMContentLoaded_overlay (p : page) :
  hidden (document (DOMContentLoaded p) passwordOverlay)
  = is_authenticated p || hidden (document p passwordOverlay).
Proof.
  unfold DOMContentLoaded. fold (is_authenticated p).
  destruct (is_authenticated p); reflexivity.
Qed.

(** X1.  A page loaded with the session item an accepted password left
    has its overlay hidden; a page loaded with any other item, or none,
    has its overlay as the markup had it. *)
Theorem reload_overlay (data : Verify.response) (p fresh : page) :
  (Verify.success data && Verify.authenticated data = true ->
   sessionStorage fresh = sessionStorage (fst (checkPassword (Resolved data) p)) ->
   hidden (document (DOMContentLoaded fresh) passwordOverlay) = true)
  /\ (sessionStorage fresh <> Some (lit "true") ->
      hidden (document (DOMContentLoaded fresh) passwordOverlay)
      = hidden (document fresh passwordOverlay)).
Proof.
  split.
  - intros Hyes Hstore. rewrite DOMContentLoaded_overlay.
    assert (Ha : is_authenticated fresh = true).
    { apply is_authenticated_true. rewrite Hstore.
      unfold checkPassword, checkPassword_settled. now rewrite Hyes. }
    now rewrite Ha.
  - intros Hno. rewrite DOMContentLoaded_overlay.
    destruct (is_authenticated fresh) eqn:Ha; [|reflexivity].
    now apply is_authenticated_true in Ha.
Qed.

Lemma reload_overlay_witness :
  hidden
    (document
       (DOMContentLoaded
          (sessionStorage_setItem (lit "true") blank_page)) passwordOverlay)
  = true.
Proof.
  exact (proj1 (reload_overlay sample_verified blank_page
                  (sessionStorage_setItem (lit "true") blank_page))
               eq_refl eq_refl).
Defined.

(** What one segment can do to the session item and to the overlay. *)
Lemma step_gate (e : event) (p : page) :
  (sessionStorage (fst (step e p)) = sessionStorage p
   /\ hidden (document (fst (step e p)) passwordOverlay)
      = hidden (document p passwordOverlay))
  \/ (exists reply,
         e = PasswordSettled reply /\ accepting reply = true
         /\ sessionStorage (fst (step e p)) = Some (lit "true")
         /\ hidden (document (fst (step e p)) passwordOverlay) = true).
Proof.
  destruct e as [text| |reply|selection| |file g|]; cbn [step fst].
  - left. split; reflexivity.
  - left. split; reflexivity.
  - unfold checkPassword_settled. destruct reply as [data|err].
    + destruct (Verify.success data && Verify.authenticated data) eqn:Hyes.
      * right. exists (Resolved data). repeat split. exact Hyes.
      * left. split; reflexivity.
    + left. split; reflexivity.
  - left. unfold select_files, fileInput_change. cbn.
    destruct selection; split; reflexivity.
  - left. unfold generate_started.
    destruct (files (document p fileInput)); split; reflexivity.
  - left. split; [apply settle_session|].
    now rewrite settle_frame by discriminate.
  - left. rewrite downloadBtn_click_page. split; reflexivity.
Qed.

(** X2.  No segment ever removes the session item or shows the overlay
    again: once the item is 'true' it is 'true' after every run, and once
    the overlay is hidden it is hidden after every run. *)
Theorem authentication_is_kept (events : list event) (p : page) :
  (sessionStorage p = Some (lit "true") ->
   sessionStorage (run events p) = Some (lit "true"))
  /\ (hidden (document p passwordOverlay) = true ->
      hidden (document (run events p) passwordOverlay) = true).
Proof.
  revert p. induction events as [|e events IH]; intros p; [now split|].
  cbn [run]. destruct (IH (fst (step e p))) as (IHs & IHo).
  destruct (step_gate e p) as [(Hs & Ho)|(reply & _ & _ & Hs & Ho)].
  - split; intros H; [apply IHs; now rewrite Hs|apply IHo; now rewrite Ho].
  - split; intros _; [now apply IHs|now apply IHo].
Qed.

Lemma authentication_is_kept_witness :
  sessionStorage
    (run sample_run (sessionStorage_setItem (lit "true") blank_page))
  = Some (lit "true").
Proof.
  exact (proj1 (authentication_is_kept sample_run
                  (sessionStorage_setItem (lit "true") blank_page)) eq_refl).
Defined.

(** X3.  A run in which no verification reply is accepting leaves the
    session item and the overlay exactly as they were: nothing but an
    accepted password authenticates. *)
Theorem authentication_needs_acceptance (events : list event) (p : page) :
  (forall reply, In (PasswordSettled reply) events -> accepting reply = false) ->
  sessionStorage (run events p) = sessionStorage p
  /\ hidden (document (run events p) passwordOverlay)
     = hidden (document p passwordOverlay).
Proof.
  revert p. induction events as [|e events IH]; intros p Hnone; [now split|].
  cbn [run].
  destruct (IH (fst (step e p))) as (IHs & IHo).
  { intros reply Hin. apply Hnone. now right. }
  rewrite IHs, IHo.
  destruct (step_gate e p) as [Hsame|(reply & -> & Hyes & _)]; [exact Hsame|].
  rewrite (Hnone reply) in Hyes by now left. discriminate.
Qed.

Lemma authentication_needs_acceptance_witness :
  sessionStorage (run sample_run blank_page) = None.
Proof.
  refine (proj1 (@authentication_needs_acceptance sample_run blank_page _)).
  intros reply Hin. simpl in Hin.
  repeat (destruct Hin as [Hin|Hin]; [discriminate Hin|]). destruct Hin.
Defined.

(** X5.  Whatever text is in the password field (quotes, backslashes,
    control characters, lone surrogates) and whatever the reply, one run of
    [checkPassword] sends exactly one request, to the verification
    endpoint, whose body parses to the object with that text as its
    password; and the field is empty afterwards. *)
Theorem checkPassword_request_body
        (reply : outcome Verify.response) (p : page) :
  let entered := value (document p passwordInput) in
  exists body rest,
    snd (checkPassword reply p) = Fetch (lit "/api/verify_password") body :: rest
    /\ Json.parse body
       = Some (Json.JObject [(lit "password", Json.JString entered)])
    /\ filter is_fetch rest = []
    /\ value (document (fst (checkPassword reply p)) passwordInput) = [].
Proof.
  cbv zeta.
  exists (Json.stringify
            (Json.JObject
               [(lit "password",
                 Json.JString (value (document p passwordInput)))])),
         (snd (checkPassword_settled reply p)).
  split; [|split; [apply parse_stringify|]].
  - unfold checkPassword, verify_request.
    destruct (checkPassword_settled reply p) as [p' effects].
    reflexivity.
  - unfold checkPassword, checkPassword_settled.
    destruct reply as [data|err];
      [destruct (Verify.success data && Verify.authenticated data)|];
      split; reflexivity.
Qed.

(** ** File intake and the generation area over runs *)

Lemma run_app (a b : list event) (p : page) :
  run (a ++ b) p = run b (run a p).
Proof.
  revert p. induction a as [|e a IH]; intros p; [reflexivity|].
  cbn [app run]. apply IH.
Qed.

(** What a segment other than a selection leaves alone: the button, the
    file input and, unless it is part of a generation, the three panels. *)
Lemma step_intake_frame (e : event) (p : page) :
  (forall selection, e <> FilesSelected selection) ->
  document (fst (step e p)) generateBtn = document p generateBtn
  /\ document (fst (step e p)) fileInput = document p fileInput.
Proof.
  intros Hne. destruct e as [text| |reply|selection| |file g|]; cbn [step fst].
  - split; reflexivity.
  - split; reflexivity.
  - unfold checkPassword_settled.
    destruct reply as [data|err];
      [destruct (Verify.success data && Verify.authenticated data)|];
      split; reflexivity.
  - now contradiction (Hne selection).
  - unfold generate_started.
    destruct (files (document p fileInput)); split; reflexivity.
  - split; apply settle_frame; discriminate.
  - rewrite downloadBtn_click_page. split; reflexivity.
Qed.

Lemma select_files_in_step (selection : list File) (p : page) :
  button_in_step (select_files selection p).
Proof.
  unfold button_in_step, select_files, fileInput_change. cbn.
  destruct selection; reflexivity.
Qed.

Lemma step_button (e : event) (p : page) :
  button_in_step p -> button_in_step (fst (step e p)).
Proof.
  intros Hp. destruct e as [text| |reply|selection| |file g|];
    try (unfold button_in_step;
         match goal with |- context [step ?e p] =>
           destruct (@step_intake_frame e p ltac:(discriminate)) as (-> & ->)
         end; exact Hp).
  apply select_files_in_step.
Qed.

Lemma run_button (events : list event) (p : page) :
  button_in_step p -> button_in_step (run events p).
Proof.
  revert p. induction events as [|e events IH]; intros p Hp; [exact Hp|].
  cbn [run]. apply IH. now apply step_button.
Qed.

(** X6.  From the first selection on, in every state a run reaches, the
    generate button is disabled exactly when no file is selected; so a
    click on the enabled button always captures a file and goes on to the
    loading state, and the handler's own guard only ever fires with the
    button disabled. *)
Theorem generate_button_follows_selection
        (before after : list event) (selection : list File) (p : page) :
  let q := run (before ++ FilesSelected selection :: after) p in
  button_in_step q
  /\ match snd (generate_started q) with
     | Some file =>
         disabled (document q generateBtn) = false
         /\ panels (fst (generate_started q)) = (false, true, true)
     | None =>
         disabled (document q generateBtn) = true
         /\ forall g, generateBtn_click g q = (q, [])
     end.
Proof.
  cbv zeta. rewrite run_app. cbn [run step fst].
  set (q := run after _).
  assert (Hq : button_in_step q)
    by (apply run_button, select_files_in_step).
  split; [exact Hq|].
  unfold button_in_step in Hq. unfold generateBtn_click, generate_started.
  destruct (files (document q fileInput)) as [|file others]; cbn [snd fst].
  - split; [exact Hq|reflexivity].
  - split; [exact Hq|reflexivity].
Qed.

Lemma step_panels (e : event) (p : page) :
  one_panel p -> one_panel (fst (step e p)).
Proof.
  intros Hp. destruct e as [text| |reply|selection| |file g|]; cbn [step fst].
  - exact Hp.
  - exact Hp.
  - unfold checkPassword_settled.
    destruct reply as [data|err];
      [destruct (Verify.success data && Verify.authenticated data)|]; exact Hp.
  - unfold select_files, fileInput_change. cbn. destruct selection; exact Hp.
  - unfold generate_started.
    destruct (files (document p fileInput)); [exact Hp|]. now left.
  - unfold one_panel, panels. right. apply settle_panels.
  - now rewrite downloadBtn_click_page.
Qed.

Lemma run_panels (events : list event) (p : page) :
  one_panel p -> one_panel (run events p).
Proof.
  revert p. induction events as [|e events IH]; intros p Hp; [exact Hp|].
  cbn [run]. apply IH. now apply step_panels.
Qed.

(** X7.  However a generation settles, the loading indicator is hidden
    when it has, and from then on, through every further run, exactly one
    of the loading, results and error panels is visible. *)
Theorem one_panel_after_generation
        (file : File) (g : generation) (p : page) (events : list event) :
  hidden (document (fst (generate_settled file g p)) loading) = true
  /\ one_panel (run events (fst (generate_settled file g p))).
Proof.
  assert (H : hidden (document (fst (generate_settled file g p)) loading) = true
              /\ one_panel (fst (generate_settled file g p))).
  { unfold one_panel, panels.
    pose proof (settle_panels file g p) as Hp.
    split; [destruct Hp as [H|H]; now injection H|right; exact Hp]. }
  split; [apply H|apply run_panels, H].
Qed.

(** X8.  One click on the generate button sends one request, to the
    generation endpoint, exactly when a file is selected and the reader
    loads it; with no file, or when the read fails, it sends nothing; what
    is sent does not depend on the reply. *)
Theorem generation_requests (g : generation) (p : page) :
  snd (generateBtn_click g p)
  = match files (document p fileInput), reader g with
    | file :: _, onload media =>
        [Fetch (lit "/api/generate_flashcards")
               (Json.stringify (generate_body file (readAsDataURL file media)))]
    | _, _ => []
    end.
Proof.
  unfold generateBtn_click, generate_started.
  destruct (files (document p fileInput)) as [|file others]; [reflexivity|].
  rewrite settle_effects. destruct (reader g) as [media|]; reflexivity.
Qed.

(** ** The payload expression of line 100 *)

Lemma occurs_cons (sep c : code_unit) (s : jsstring) :
  occurs sep (c :: s) = unit_eqb c sep || occurs sep s.
Proof. unfold occurs, unit_eqb. cbn [existsb]. now rewrite N.eqb_sym. Qed.

Lemma split_pieces (sep : code_unit) (s : jsstring) :
  split sep s
  = before_first sep s
      :: (if occurs sep s then split sep (DataURL.after_first sep s) else []).
Proof.
  induction s as [|c s IH]; [reflexivity|].
  rewrite occurs_cons. cbn [split before_first DataURL.after_first].
  destruct (unit_eqb c sep); [reflexivity|].
  rewrite IH. reflexivity.
Qed.

(** X9.  For any text the reader could hand over, the [file_content] of
    the request body is the text between its first comma and its second
    (to the end when there is no second), and the property is left out of
    the body when the text has no comma at all. *)
Theorem file_content_is_second_piece (file : File) (base64File : jsstring) :
  generate_body file base64File
  = Json.JObject
      ((if occurs COMMA base64File
        then [(lit "file_content",
               Json.JString
                 (before_first COMMA (DataURL.after_first COMMA base64File)))]
        else [])
         ++ [(lit "file_type", Json.JString (type file))]).
Proof.
  unfold generate_body. rewrite split_pieces.
  destruct (occurs COMMA base64File); [|reflexivity].
  cbn [nth_error]. rewrite split_pieces. reflexivity.
Qed.

(** ** Edge cases *)

(** X13.  A success response with no cards shows the results panel with
    a count of 0 and an empty container, and an export right after it is a
    no-op. *)
Theorem empty_success
        (file : File) (g : generation) (media : jsstring)
        (data : Generate.response) (p : page) :
  reader g = onload media ->
  reply g = Resolved data ->
  Generate.success data = true ->
  Generate.flashcards data = Some (Json.JArray []) ->
  let p' := fst (generate_settled file g p) in
  children (document p' flashcardsContainer) = []
  /\ textContent (document p' resultsCount)
     = CHECK_MARK ++ lit " Generated 0 flashcards!"
  /\ panels p' = (true, false, true)
  /\ downloadBtn_click p' = (p', []).
Proof.
  intros Hread Hreply Hok Hnone. cbv zeta.
  unfold generate_settled. rewrite Hread. cbn [fileToBase64].
  rewrite Hreply, Hok, Hnone. cbn. repeat split.
Qed.

Lemma empty_success_witness :
  let g := {| reader := onload (lit "text/plain");
              reply := Resolved {| Generate.success := true;
                                   Generate.flashcards := Some (Json.JArray []);
                                   Generate.error := None |};
              type_error := [] |} in
  downloadBtn_click (fst (generate_settled sample_file g blank_page))
  = (fst (generate_settled sample_file g blank_page), []).
Proof.
  intros g.
  exact (proj2 (proj2 (proj2
           (@empty_success sample_file g (lit "text/plain")
              {| Generate.success := true;
                 Generate.flashcards := Some (Json.JArray []);
                 Generate.error := None |}
              blank_page eq_refl eq_refl eq_refl eq_refl)))).
Defined.






Lemma inert_step (e : event) (p : page) :
  inert e = true -> fst (step e p) = p.
Proof.
  destruct e; try discriminate; intros _; cbn [step fst]; [reflexivity|].
  apply downloadBtn_click_page.
Qed.

(** X14.  The export and the sending of the password only read the page:
    taking every export click and every submission start out of a run
    leaves the page it ends in the same. *)
Theorem inert_segments_erase (events : list event) (p : page) :
  run (filter (fun e => negb (inert e)) events) p = run events p.
Proof.
  revert p. induction events as [|e events IH]; intros p; [reflexivity|].
  cbn [filter run]. destruct (inert e) eqn:He; cbn [negb].
  - rewrite inert_step by exact He. apply IH.
  - cbn [run]. apply IH.
Qed.

(** ** More on escaping *)

Lemma escaped_unit (c : code_unit) :
  (special c = false
   /\ replace_newlines (lit "<br>") (Html.escape_unit c) = [c])
  \/ (special c = true
      /\ 4 <= List.length (replace_newlines (lit "<br>") (Html.escape_unit c))).
Proof.
  unfold special, Html.escape_unit.
  unit_cases c AMP; [right; split; [reflexivity|simpl; lia]|].
  unit_cases c NBSP; [right; split; [reflexivity|simpl; lia]|].
  unit_cases c LT; [right; split; [reflexivity|simpl; lia]|].
  unit_cases c GT; [right; split; [reflexivity|simpl; lia]|].
  unfold replace_newlines. cbn [flat_map app orb].
  unit_cases c LF; [right; split; [reflexivity|simpl; lia]|].
  left. split; reflexivity.
Qed.

Lemma escapeHtml_app (a b : jsstring) :
  escapeHtml (a ++ b) = escapeHtml a ++ escapeHtml b.
Proof.
  unfold escapeHtml, replace_newlines, Html.escape_string.
  now rewrite !flat_map_app.
Qed.

Lemma escapeHtml_length (text : jsstring) :
  List.length text <= List.length (escapeHtml text)
  /\ (existsb special text = true ->
      List.length text < List.length (escapeHtml text)).
Proof.
  induction text as [|c text (IHle & IHlt)]; [split; [simpl; lia|discriminate]|].
  rewrite escapeHtml_cons, length_app. cbn [List.length existsb].
  destruct (escaped_unit c) as [(Hs & ->)|(Hs & Hlen)]; rewrite Hs; cbn [orb].
  - split; [simpl; lia|]. intros H. apply IHlt in H. simpl. lia.
  - split; [lia|]. intros _. lia.
Qed.

Lemma escapeHtml_plain (text : jsstring) :
  existsb special text = false -> escapeHtml text = text.
Proof.
  induction text as [|c text IH]; [reflexivity|].
  cbn [existsb]. intros H. apply orb_false_iff in H. destruct H as [Hc Ht].
  rewrite escapeHtml_cons, IH by exact Ht.
  destruct (escaped_unit c) as [(_ & ->)|(Hs & _)]; [reflexivity|congruence].
Qed.

(** X10.  Escaping works unit by unit: the escape of a concatenation is
    the concatenation of the escapes; it never shortens a text; and it
    returns a text unchanged exactly when the text has none of the five
    units it rewrites (ampersand, no-break space, less-than, greater-than,
    newline). *)
Theorem escapeHtml_unit_by_unit (a b : jsstring) :
  escapeHtml (a ++ b) = escapeHtml a ++ escapeHtml b
  /\ List.length a <= List.length (escapeHtml a)
  /\ (escapeHtml a = a <-> existsb special a = false).
Proof.
  split; [apply escapeHtml_app|]. split; [apply escapeHtml_length|].
  split; [|apply escapeHtml_plain].
  intros Heq. destruct (existsb special a) eqn:E; [|reflexivity].
  destruct (escapeHtml_length a) as (_ & Hlt).
  specialize (Hlt E). rewrite Heq in Hlt. lia.
Qed.

Lemma shown_injective (a b : jsstring) : Html.shown a = Html.shown b -> a = b.
Proof.
  unfold Html.shown. revert b.
  induction a as [|x a IH]; intros [|y b] H; try discriminate H; [reflexivity|].
  cbn [map] in H. injection H as Hxy Hab.
  f_equal; [|now apply IH].
  revert Hxy. unit_cases x LF; unit_cases y LF; congruence.
Qed.

(** X11.  Escaping loses nothing: two different texts never have the
    same escaped form. *)
Theorem escapeHtml_injective (a b : jsstring) :
  a <> b -> escapeHtml a <> escapeHtml b.
Proof.
  intros Hne Heq. apply Hne, shown_injective.
  pose proof (tokenize_escapeHtml_app a []) as Ha.
  pose proof (tokenize_escapeHtml_app b []) as Hb.
  rewrite Heq, Hb in Ha. now apply app_inv_tail in Ha.
Qed.

Lemma escapeHtml_injective_witness :
  escapeHtml (lit "<") <> escapeHtml (lit "&lt;").
Proof. apply escapeHtml_injective. discriminate. Defined.

(** ** The markup of a flashcard *)

Section Markup.
Import Html.

(** Self-contained content with its numbers of tags and line breaks. *)
Lemma tags_app (a b : jsstring) :
  self_contained a -> tags (a ++ b) = tags a + tags b.
Proof.
  intros Ha. unfold tags. now rewrite Ha, filter_app, length_app.
Qed.

Lemma breaks_app (a b : jsstring) :
  self_contained a -> breaks (a ++ b) = breaks a + breaks b.
Proof.
  intros Ha. unfold breaks. now rewrite Ha, filter_app, length_app.
Qed.

Lemma self_contained_app (a b : jsstring) :
  self_contained a -> self_contained b -> self_contained (a ++ b).
Proof.
  intros Ha Hb rest. now rewrite <- app_assoc, Ha, Hb, Ha, app_assoc.
Qed.

Lemma character_data_unit (c : code_unit) (rest : jsstring) :
  character_data c = true -> tokenize 0 (c :: rest) = Chr c :: tokenize 0 rest.
Proof.
  unfold character_data. intros H. apply andb_true_iff in H.
  destruct H as [H1 H2]. apply negb_true_iff in H1, H2.
  cbn [tokenize]. now rewrite H1, H2.
Qed.

Lemma character_data_text (s rest : jsstring) :
  forallb character_data s = true ->
  tokenize 0 (s ++ rest) = map Chr s ++ tokenize 0 rest.
Proof.
  induction s as [|c s IH]; [reflexivity|].
  cbn [forallb]. intros H. apply andb_true_iff in H. destruct H as [Hc Hs].
  rewrite <- app_comm_cons, character_data_unit by exact Hc.
  now rewrite IH.
Qed.

Lemma plain_text_measure (s : jsstring) :
  forallb character_data s = true ->
  self_contained s /\ tags s = 0 /\ breaks s = 0.
Proof.
  intros Hs.
  assert (Ht : tokenize 0 s = map Chr s).
  { rewrite <- (app_nil_r s) at 1. rewrite character_data_text by exact Hs.
    apply app_nil_r. }
  split; [|split].
  - intros rest. now rewrite character_data_text, Ht.
  - unfold tags. rewrite Ht. clear. induction s; [reflexivity|exact IHs].
  - unfold breaks. rewrite Ht. clear. induction s; [reflexivity|exact IHs].
Qed.

Lemma Number_toString_measure (n : nat) :
  self_contained (Number_toString n)
  /\ tags (Number_toString n) = 0 /\ breaks (Number_toString n) = 0.
Proof.
  apply plain_text_measure. unfold Number_toString, NilZero.string_of_uint.
  destruct (Nat.to_uint n) eqn:E; try reflexivity;
    rewrite <- E; apply digits_are_character_data.
Qed.

Lemma shown_counts (text : jsstring) :
  List.length (filter is_markup (shown text)) = 0
  /\ List.length (filter is_break (shown text)) = newlines text.
Proof.
  unfold shown, newlines. induction text as [|c text (IH1 & IH2)]; [now split|].
  cbn [map filter]. destruct (unit_eqb c LF); cbn [is_markup is_break List.length];
    split; congruence.
Qed.

Lemma escapeHtml_measure (text : jsstring) :
  self_contained (escapeHtml text)
  /\ tags (escapeHtml text) = 0 /\ breaks (escapeHtml text) = newlines text.
Proof.
  assert (Ht : tokenize 0 (escapeHtml text) = shown text).
  { rewrite <- (app_nil_r (escapeHtml text)), tokenize_escapeHtml_app.
    apply app_nil_r. }
  destruct (shown_counts text) as (H1 & H2).
  split; [|split].
  - intros rest. now rewrite tokenize_escapeHtml_app, Ht.
  - unfold tags. now rewrite Ht.
  - unfold breaks. now rewrite Ht.
Qed.

Lemma measure_app (a b : jsstring) (ta ba tb bb : nat) :
  self_contained a /\ tags a = ta /\ breaks a = ba ->
  self_contained b /\ tags b = tb /\ breaks b = bb ->
  self_contained (a ++ b)
  /\ tags (a ++ b) = ta + tb /\ breaks (a ++ b) = ba + bb.
Proof.
  intros (Sa & Ta & Ba) (Sb & Tb & Bb). split; [|split].
  - now apply self_contained_app.
  - now rewrite tags_app, Ta, Tb.
  - now rewrite breaks_app, Ba, Bb.
Qed.

Lemma label_measure (letter : string) (number : nat) :
  forallb character_data (lit letter) = true ->
  self_contained (lit letter ++ Number_toString number)
  /\ tags (lit letter ++ Number_toString number) = 0
  /\ breaks (lit letter ++ Number_toString number) = 0.
Proof.
  intros H.
  exact (measure_app (plain_text_measure _ H) (Number_toString_measure number)).
Qed.

Lemma face_measure (cls : string) (label escaped : jsstring) (b : nat) :
  forallb character_data (lit cls) = true ->
  self_contained label /\ tags label = 0 /\ breaks label = 0 ->
  self_contained escaped /\ tags escaped = 0 /\ breaks escaped = b ->
  self_contained (face cls label escaped)
  /\ tags (face cls label escaped) = 6
  /\ breaks (face cls label escaped) = b.
Proof.
  intros Hcls Hlabel Hescaped.
  pose proof (plain_text_measure _ Hcls) as Hc.
  unfold face, line, number_div, text_div, attr.
  match goal with |- self_contained ?e /\ _ =>
    eassert (H : self_contained e /\ tags e = _ /\ breaks e = _)
      by (measure_with measure_app)
  end.
  destruct H as (S & T & B). split; [exact S|]. rewrite T, B.
  split; [reflexivity|].
  repeat match goal with
    | |- context [breaks ?l] =>
        let v := eval vm_compute in (breaks l) in change (breaks l) with v
    end.
  lia.
Qed.

(** X12.  Whatever the card's texts and number, the markup built for it
    has the same fourteen tags of the template and no other; the only
    elements its texts add are line breaks, one for each newline of the
    question and of the answer. *)
Theorem flashcard_markup_structure (c : card) (number : nat) :
  tags (innerHTML (createFlashcardElement c number)) = 14
  /\ breaks (innerHTML (createFlashcardElement c number))
     = newlines (question c) + newlines (answer c).
Proof.
  cbn [innerHTML createFlashcardElement]. unfold flashcard_markup.
  pose proof (face_measure "flashcard-front" eq_refl
                (label_measure "Q" number eq_refl)
                (escapeHtml_measure (question c))) as Hfront.
  pose proof (face_measure "flashcard-back" eq_refl
                (label_measure "A" number eq_refl)
                (escapeHtml_measure (answer c))) as Hback.
  unfold line, attr.
  match goal with |- tags ?e = _ /\ _ =>
    eassert (H : self_contained e /\ tags e = _ /\ breaks e = _)
      by (measure_with measure_app)
  end.
  destruct H as (_ & T & B). rewrite T, B.
  split; [reflexivity|].
  generalize (newlines (question c)), (newlines (answer c)). intros x y.
  repeat match goal with
    | |- context [breaks ?l] =>
        let v := eval vm_compute in (breaks l) in change (breaks l) with v
    end.
  lia.
Qed.

End Markup.

(** ** What a run asks of the platform *)

Lemma step_permitted (e : event) (p : page) : Forall permitted (snd (step e p)).
Proof.
  destruct e as [text| |reply|selection| |file g|]; cbn [step snd].
  - constructor.
  - repeat constructor.
  - unfold checkPassword_settled.
    destruct reply as [data|err];
      [destruct (Verify.success data && Verify.authenticated data)|];
      repeat constructor.
  - constructor.
  - constructor.
  - rewrite settle_effects.
    destruct (reader g) as [media|]; repeat constructor; now right.
  - unfold downloadBtn_click.
    destruct (currentFlashcards p) as [[| | |l|]|];
      try match goal with |- context [length_is_zero ?v] =>
            destruct (length_is_zero v)
          end;
      repeat constructor.
Qed.

(** X15.  Over every run, from any page, the script contacts nothing but
    its two endpoints, moves focus nowhere but to the password field, and
    offers no file but flashcards.json, as application/json. *)
Theorem run_effects_permitted (events : list event) (p : page) :
  Forall permitted (run_effects events p).
Proof.
  revert p. induction events as [|e events IH]; intros p; [constructor|].
  cbn [run_effects]. apply Forall_app. split; [apply step_permitted|apply IH].
Qed.
